(** * chatgpt-csv: the table editor, its undo/redo history and the AI update path

    A shallow embedding of the three React components that hold the program's
    state:

    - [CSVTable]   (the grid: cell edits, add/delete row and column, the
                    width-normalising effect),
    - [AIModifier] ([processWithAI]: what is done with the model's answer),
    - [CSVEditor]  (the canonical table, the file name and the history).

    A component is a record of its [useState]/[useRef] cells; a handler is a
    function from the state of the render it was created in to the state after
    it, together with what it emits (toasts, calls of the callbacks passed in
    by the parent). *)

From Stdlib Require Import ZArith Lia.
From stdpp Require Import base list strings pretty.

Local Open Scope Z_scope.
Local Open Scope nat_scope.

(** ** JavaScript arrays *)

(** What a slot of a [string[]] holds at run time: a string, or [undefined]
    where an index assignment past the end left a hole. *)
Inductive slot :=
  | undefined
  | str (s : string).

#[global] Instance slot_eq_dec : EqDecision slot.
Proof. solve_decision. Defined.

Module JS.

(** [arr[i]]: reading outside the array gives [undefined]. *)
Definition get (arr : list slot) (i : nat) : slot :=
  default undefined (arr !! i).

(** [arr[i] = v]: inside the array the slot is overwritten; past the end the
    array grows to length [i + 1], the slots in between being holes.  A hole
    reads [undefined] and is written so; which slots are holes is given by
    [holes], and kept where it matters: a row is always spread, which turns
    its holes into [undefined] values, before it is filtered, the header row
    of the grid is not. *)
Definition set (arr : list slot) (i : nat) (v : slot) : list slot :=
  if decide (i < length arr) then <[i:=v]> arr
  else arr ++ replicate (i - length arr) undefined ++ [v].

(** [arr[i]?.[j]] on an array of rows: [undefined] where the row or the
    slot is missing. *)
Definition cell (arr : list (list slot)) (i j : nat) : slot :=
  match arr !! i with
  | Some row => get row j
  | None => undefined
  end.

(** The holes [arr[i] = v] leaves in an array that had none: the indices
    from the old length up to [i], excluded. *)
Definition holes (arr : list slot) (i : nat) : list nat :=
  seq (length arr) (i - length arr).

(** [arr[i]] for an index that is a JavaScript number. *)
Definition index {A} (arr : list A) (i : Z) : option A :=
  if decide (0 <= i)%Z then arr !! Z.to_nat i else None.

(** A relative index of [slice]: negative counts from the end, and the
    result is clamped to [0 .. len]. *)
Definition rel_index (k : Z) (len : nat) : nat :=
  if decide (k < 0)%Z then Z.to_nat (Z.max (Z.of_nat len + k) 0)
  else Z.to_nat (Z.min k (Z.of_nat len)).

(** [arr.slice(start, end)] and [arr.slice(start)]. *)
Definition slice {A} (arr : list A) (start end_ : Z) : list A :=
  let from := rel_index start (length arr) in
  let to := rel_index end_ (length arr) in
  take (to - from) (drop from arr).

Definition slice_from {A} (arr : list A) (start : Z) : list A :=
  slice arr start (Z.of_nat (length arr)).

(** [arr.push(x)] and [arr.shift()], as the array they leave behind. *)
Definition push {A} (arr : list A) (x : A) : list A := arr ++ [x].
Definition shift {A} (arr : list A) : list A := tail arr.

(** [arr.filter((x, index) => p x index)] on an array without holes: the
    callback sees every index. *)
Fixpoint filter_from {A} (p : A -> nat -> bool) (k : nat) (arr : list A) : list A :=
  match arr with
  | [] => []
  | x :: rest =>
      if p x k then x :: filter_from p (S k) rest else filter_from p (S k) rest
  end.

Definition filter {A} (p : A -> nat -> bool) (arr : list A) : list A :=
  filter_from p 0 arr.

(** [arr.filter((x, index) => p x index)] on an array with holes at [holes]:
    the callback is not called on a hole, and the hole is left out. *)
Definition filter_sparse {A} (holes : list nat) (p : A -> nat -> bool)
    (arr : list A) : list A :=
  filter (fun x index => negb (bool_decide (index ∈ holes)) && p x index) arr.

(** [Array(n).fill("")] and [new Array(n).fill("")]. *)
Definition fill_empty (n : nat) : list slot := replicate n (str "").

(** [index !== k] on array indices. *)
Definition neq (index k : nat) : bool := negb (index =? k).

(** What [join] writes for an element: nothing for [undefined]. *)
Definition text (x : slot) : string :=
  match x with
  | str s => s
  | undefined => ""
  end.

(** [parts.join(sep)] on strings, and [arr.join(sep)] on slots. *)
Fixpoint join_strings (sep : string) (parts : list string) : string :=
  match parts with
  | [] => ""
  | p :: rest =>
      match rest with
      | [] => p
      | _ :: _ => p +:+ sep +:+ join_strings sep rest
      end
  end.

Definition join (sep : string) (arr : list slot) : string :=
  join_strings sep (map text arr).

End JS.

(** ** Shared shapes *)

(** [interface CSVData { data: string[][]; headers: string[] }] *)
Record CSVData := {
  data : list (list slot);
  headers : list slot
}.

#[global] Instance CSVData_eq_dec : EqDecision CSVData.
Proof. solve_decision. Defined.

(** Calls of react-hot-toast. *)
Inductive toast :=
  | toast_success (msg : string)
  | toast_error (msg : string)
  | toast_loading (msg : string).

Definition is_error (t : toast) : bool :=
  match t with toast_error _ => true | _ => false end.

(** ** CSVTable: the grid *)

Module CSVTable.

Record State := {
  internalHeaders : list slot;
  internalData : list (list slot);
  editingCell : option (nat * nat);      (* { row, col } | null *)
  editingValue : string;
  editingHeader : option nat;
  editingHeaderValue : string;
  isUpdatingRef : bool;
  headerHoles : list nat       (* the indices of [internalHeaders] that are holes *)
}.

(** The callbacks of [CSVTableProps] a handler may call. *)
Inductive callback :=
  | onDataChange (newData : list (list slot))
  | onHeaderChange (newHeaders : list slot).

(** [setInternalHeaders(v)] with an array without holes: a spread copy or the
    result of a filter. *)
Definition setInternalHeaders (v : list slot) (s : State) : State :=
  {| internalHeaders := v; internalData := internalData s;
     editingCell := editingCell s; editingValue := editingValue s;
     editingHeader := editingHeader s;
     editingHeaderValue := editingHeaderValue s;
     isUpdatingRef := isUpdatingRef s;
     headerHoles := [] |}.

Definition setInternalData (v : list (list slot)) (s : State) : State :=
  {| internalHeaders := internalHeaders s; internalData := v;
     editingCell := editingCell s; editingValue := editingValue s;
     editingHeader := editingHeader s;
     editingHeaderValue := editingHeaderValue s;
     isUpdatingRef := isUpdatingRef s;
     headerHoles := headerHoles s |}.

(** [setInternalHeaders(v)] with an array that has holes at [holes]. *)
Definition setSparseHeaders (v : list slot) (holes : list nat) (s : State)
    : State :=
  {| internalHeaders := v; internalData := internalData s;
     editingCell := editingCell s; editingValue := editingValue s;
     editingHeader := editingHeader s;
     editingHeaderValue := editingHeaderValue s;
     isUpdatingRef := isUpdatingRef s;
     headerHoles := holes |}.

Definition setEditingCell (v : option (nat * nat)) (s : State) : State :=
  {| internalHeaders := internalHeaders s; internalData := internalData s;
     editingCell := v; editingValue := editingValue s;
     editingHeader := editingHeader s;
     editingHeaderValue := editingHeaderValue s;
     isUpdatingRef := isUpdatingRef s;
     headerHoles := headerHoles s |}.

Definition setEditingValue (v : string) (s : State) : State :=
  {| internalHeaders := internalHeaders s; internalData := internalData s;
     editingCell := editingCell s; editingValue := v;
     editingHeader := editingHeader s;
     editingHeaderValue := editingHeaderValue s;
     isUpdatingRef := isUpdatingRef s;
     headerHoles := headerHoles s |}.

Definition setIsUpdating (v : bool) (s : State) : State :=
  {| internalHeaders := internalHeaders s; internalData := internalData s;
     editingCell := editingCell s; editingValue := editingValue s;
     editingHeader := editingHeader s;
     editingHeaderValue := editingHeaderValue s;
     isUpdatingRef := v;
     headerHoles := headerHoles s |}.

(** The initial state of a mounted grid: copies of the two props. *)
Definition mount (headers : list slot) (data : list (list slot)) : State :=
  {| internalHeaders := headers; internalData := data;
     editingCell := None; editingValue := "";
     editingHeader := None; editingHeaderValue := "";
     isUpdatingRef := false;
     headerHoles := [] |}.

(** First effect, on [headers, data]: take over the props unless a local
    structural edit is in flight. *)
Definition syncEffect (headers : list slot) (data : list (list slot))
    (s : State) : State :=
  if isUpdatingRef s then s
  else setInternalData data (setInternalHeaders headers s).

(** The body of the [map] of the second effect, for one row. *)
Definition normalizeRow (headerCount : nat) (row : list slot) : list slot :=
  if decide (length row ≠ headerCount) then
    if decide (headerCount < length row) then
      JS.slice row 0 (Z.of_nat headerCount)
    else row ++ JS.fill_empty (headerCount - length row)
  else row.

(** [needUpdate] after the [map]: some row had another width. *)
Definition needUpdate (headerCount : nat) (rows : list (list slot)) : bool :=
  existsb (fun row => bool_decide (length row ≠ headerCount)) rows.

(** Second effect: every row gets the width of the header row. *)
Definition normalizeEffect (s : State) : State * list callback :=
  if bool_decide (0 < length (internalData s)) && negb (isUpdatingRef s) then
    let headerCount := length (internalHeaders s) in
    let normalizedData := map (normalizeRow headerCount) (internalData s) in
    if needUpdate headerCount (internalData s) then
      (setInternalData normalizedData s, [onDataChange normalizedData])
    else (s, [])
  else (s, []).

Definition handleCellClick (row col : nat) (value : string) (s : State) : State :=
  setEditingValue value (setEditingCell (Some (row, col)) s).

(** Committing the cell draft. [newData[row]] is truthy exactly when the row
    exists. *)
Definition handleCellBlur (s : State) : State * list callback :=
  match editingCell s with
  | Some (row, col) =>
      let newData := internalData s in
      match newData !! row with
      | Some _ =>
          if decide (col < length (internalHeaders s)) then
            let newData :=
              alter (fun r => JS.set r col (str (editingValue s))) row newData in
            (setEditingCell None (setInternalData newData s),
             [onDataChange newData])
          else (setEditingCell None s, [])
      | None => (setEditingCell None s, [])
      end
  | None => (s, [])
  end.

Definition addRow (s : State) : State * list callback :=
  let s := setIsUpdating true s in
  let newRow := JS.fill_empty (length (internalHeaders s)) in
  let newData := internalData s ++ [newRow] in
  (setInternalData newData s, [onDataChange newData]).

Definition deleteRow (rowIndex : nat) (s : State) : State * list callback :=
  let s := setIsUpdating true s in
  let newData := JS.filter (fun _ index => JS.neq index rowIndex) (internalData s) in
  (setInternalData newData s, [onDataChange newData]).

(** The template literal of the new header: the word and the 1-based
    position in decimal. *)
Definition columnName (n : nat) : string := "欄位 " +:+ pretty n.

Definition addColumn (s : State) : State * list callback :=
  let s := setIsUpdating true s in
  let newHeaders :=
    internalHeaders s ++ [str (columnName (length (internalHeaders s) + 1))] in
  let newData := map (fun row => JS.push row (str "")) (internalData s) in
  (setInternalData newData (setInternalHeaders newHeaders s),
   [onHeaderChange newHeaders; onDataChange newData]).

Definition deleteColumn (colIndex : nat) (s : State) : State * list callback :=
  let s := setIsUpdating true s in
  let newHeaders :=
    JS.filter_sparse (headerHoles s)
      (fun _ index => JS.neq index colIndex) (internalHeaders s) in
  let newData :=
    map (fun row =>
           let paddedRow :=
             if decide (length row < length (internalHeaders s)) then
               row ++ JS.fill_empty (length (internalHeaders s) - length row)
             else row in
           JS.filter (fun _ index => JS.neq index colIndex) paddedRow)
        (internalData s) in
  (setInternalData newData (setInternalHeaders newHeaders s),
   [onHeaderChange newHeaders; onDataChange newData]).

(** The [setTimeout(..., 0)] of the four structural handlers. *)
Definition timeout (s : State) : State := setIsUpdating false s.

Definition setEditingHeader (v : option nat) (s : State) : State :=
  {| internalHeaders := internalHeaders s; internalData := internalData s;
     editingCell := editingCell s; editingValue := editingValue s;
     editingHeader := v;
     editingHeaderValue := editingHeaderValue s;
     isUpdatingRef := isUpdatingRef s;
     headerHoles := headerHoles s |}.

Definition setEditingHeaderValue (v : string) (s : State) : State :=
  {| internalHeaders := internalHeaders s; internalData := internalData s;
     editingCell := editingCell s; editingValue := editingValue s;
     editingHeader := editingHeader s;
     editingHeaderValue := v;
     isUpdatingRef := isUpdatingRef s;
     headerHoles := headerHoles s |}.

Definition handleCellChange (value : string) (s : State) : State :=
  setEditingValue value s.

Definition handleHeaderClick (index : nat) (value : string) (s : State) : State :=
  setEditingHeaderValue value (setEditingHeader (Some index) s).

Definition handleHeaderChange (value : string) (s : State) : State :=
  setEditingHeaderValue value s.

(** Committing the header draft: the index assignment, on a spread copy of
    the headers, is not guarded, and the array it leaves is stored with the
    holes the assignment made. *)
Definition handleHeaderBlur (s : State) : State * list callback :=
  match editingHeader s with
  | Some index =>
      let newHeaders :=
        JS.set (internalHeaders s) index (str (editingHeaderValue s)) in
      (setEditingHeader None
         (setSparseHeaders newHeaders (JS.holes (internalHeaders s) index) s),
       [onHeaderChange newHeaders])
  | None => (s, [])
  end.

(** [handleKeyDown]: Enter commits the cell draft, or else the header
    draft. *)
Definition handleKeyDown (key : string) (s : State) : State * list callback :=
  if decide (key = "Enter") then
    match editingCell s with
    | Some _ => handleCellBlur s
    | None =>
        match editingHeader s with
        | Some _ => handleHeaderBlur s
        | None => (s, [])
        end
    end
  else (s, []).

(** The cell the table body shows in a header column:
    [colIndex < row.length ? row[colIndex] : ""]. *)
Definition shown (row : list slot) (colIndex : nat) : slot :=
  if decide (colIndex < length row) then JS.get row colIndex else str "".

(** Every row of the grid has the width of its header row. *)
Definition settled (s : State) : Prop :=
  Forall (fun row => length row = length (internalHeaders s)) (internalData s).

End CSVTable.

(** ** AIModifier: what is done with the model's answer *)

Module AIModifier.

(** [AIReturnValue], the zod schema of the structured answer. *)
Record AIReturnValue := {
  needsModification : bool;
  message : string;
  table : list (list slot)
}.

(** How the awaited [client.responses.parse] call ends: it throws (an
    [Error] with its message, or some other value), or it returns with
    [output_parsed] set or null. *)
Inductive response :=
  | rejected (errorMessage : option string)
  | output_parsed (result : option AIReturnValue).

Record State := {
  prompt : string;
  apiKey : string;
  model : string;
  isProcessing : bool;
  showApiKeyInput : bool;
  showAdvancedSettings : bool;
  analysisResult : string
}.

(** What [processWithAI] emits: toasts, and calls of the [onDataUpdate]
    prop. *)
Inductive effect :=
  | toast_call (t : toast)
  | onDataUpdate (newData : CSVData).

Definition setIsProcessing (v : bool) (s : State) : State :=
  {| prompt := prompt s; apiKey := apiKey s; model := model s;
     isProcessing := v; showApiKeyInput := showApiKeyInput s;
     showAdvancedSettings := showAdvancedSettings s;
     analysisResult := analysisResult s |}.

Definition setShowApiKeyInput (v : bool) (s : State) : State :=
  {| prompt := prompt s; apiKey := apiKey s; model := model s;
     isProcessing := isProcessing s; showApiKeyInput := v;
     showAdvancedSettings := showAdvancedSettings s;
     analysisResult := analysisResult s |}.

Definition setAnalysisResult (v : string) (s : State) : State :=
  {| prompt := prompt s; apiKey := apiKey s; model := model s;
     isProcessing := isProcessing s; showApiKeyInput := showApiKeyInput s;
     showAdvancedSettings := showAdvancedSettings s;
     analysisResult := v |}.

(** The toast shown while the request is under way. *)
Definition loadingToast : toast := toast_loading "正在處理您的請求...".

Section process.

(** [String.prototype.trim] of the host. *)
Variable trim : string -> string.

(** The [if (result) ... else ...] block after the call returned. *)
Definition handleResult (result : option AIReturnValue) (s : State)
    : State * list effect :=
  match result with
  | Some result =>
      if decide (0 < length (table result)) then
        let s := setAnalysisResult (message result) s in
        if needsModification result then
          match table result with
          | newHeaders :: _ =>
              let newData := JS.slice_from (table result) 1 in
              (s, [onDataUpdate {| headers := newHeaders; data := newData |};
                   toast_call (toast_success "根據分析，CSV數據已更新")])
          | [] => (s, [])   (* excluded by the test on the length *)
          end
        else (s, [toast_call (toast_success "數據分析完成，無需修改")])
      else (s, [toast_call (toast_error "AI 返回了無效的數據格式")])
  | None => (s, [toast_call (toast_error "未能從 AI 獲取有效響應")])
  end.

Definition processWithAI (answer : response) (s : State)
    : State * list effect :=
  if decide (apiKey s = "") then
    (setShowApiKeyInput true s,
     [toast_call (toast_error "請輸入您的 OpenAI API 密鑰")])
  else if decide (trim (prompt s) = "") then
    (s, [toast_call (toast_error "請輸入指令")])
  else
    let s := setAnalysisResult "" (setIsProcessing true s) in
    let loading := toast_call loadingToast in
    match answer with
    | output_parsed result =>
        let '(s, out) := handleResult result s in
        (setIsProcessing false s, loading :: out)
    | rejected errorMessage =>
        (setIsProcessing false s,
         [loading;
          toast_call
            (toast_error
               ("處理失敗: " +:+ default "未知錯誤" errorMessage))])
    end.

End process.

(** The calls of [onDataUpdate] among the emitted effects. *)
Definition updates (out : list effect) : list CSVData :=
  omap (fun e => match e with onDataUpdate d => Some d | _ => None end) out.

Definition toasts (out : list effect) : list toast :=
  omap (fun e => match e with toast_call t => Some t | _ => None end) out.

(** The table as written into the user prompt: the header line and one line
    per row, cells joined by commas, lines by line feeds. *)
Definition csvString (csvData : CSVData) : string :=
  JS.join_strings (String (Ascii.ascii_of_nat 10) EmptyString)
    (JS.join "," (headers csvData) :: map (JS.join ",") (data csvData)).

End AIModifier.

(** ** CSVEditor: the canonical table and its history *)

Module CSVEditor.

(** [type HistoryState = { csvData: CSVData | null; fileName: string }] *)
Module HistoryState.
Record t := {
  csvData : option CSVData;
  fileName : string
}.
End HistoryState.

Record State := {
  csvData : option CSVData;
  fileName : string;
  isLoading : bool;
  history : list HistoryState.t;
  currentHistoryIndex : Z
}.

Definition setCsvData (v : option CSVData) (s : State) : State :=
  {| csvData := v; fileName := fileName s; isLoading := isLoading s;
     history := history s; currentHistoryIndex := currentHistoryIndex s |}.

Definition setFileName (v : string) (s : State) : State :=
  {| csvData := csvData s; fileName := v; isLoading := isLoading s;
     history := history s; currentHistoryIndex := currentHistoryIndex s |}.

Definition setIsLoading (v : bool) (s : State) : State :=
  {| csvData := csvData s; fileName := fileName s; isLoading := v;
     history := history s; currentHistoryIndex := currentHistoryIndex s |}.

Definition setHistory (v : list HistoryState.t) (s : State) : State :=
  {| csvData := csvData s; fileName := fileName s; isLoading := isLoading s;
     history := v; currentHistoryIndex := currentHistoryIndex s |}.

Definition setCurrentHistoryIndex (v : Z) (s : State) : State :=
  {| csvData := csvData s; fileName := fileName s; isLoading := isLoading s;
     history := history s; currentHistoryIndex := v |}.

(** The [useState] initial values. *)
Definition initial : State :=
  {| csvData := None; fileName := "data.csv"; isLoading := false;
     history := []; currentHistoryIndex := (-1)%Z |}.

(** How a handler ends: it returns, having set state and shown toasts, or an
    uncaught [TypeError] leaves it before any state was set. *)
Inductive outcome :=
  | Returned (s : State) (shown : list toast)
  | TypeError.

(** [newHistory] as [updateHistory] builds it from the history and the index
    of the current render. *)
Definition newHistory (history : list HistoryState.t) (currentHistoryIndex : Z)
    (entry : HistoryState.t) : list HistoryState.t :=
  let newHistory := JS.slice history 0 (currentHistoryIndex + 1)%Z in
  let newHistory := JS.push newHistory entry in
  if decide (50 < length newHistory) then JS.shift newHistory else newHistory.

Definition updateHistory (newCsvData : option CSVData) (newFileName : string)
    (s : State) : State :=
  let newHistory :=
    newHistory (history s) (currentHistoryIndex s)
      {| HistoryState.csvData := newCsvData;
         HistoryState.fileName := newFileName |} in
  setCurrentHistoryIndex (Z.of_nat (length newHistory) - 1)%Z
    (setHistory newHistory s).

Definition updateDataWithHistory (newCsvData : option CSVData)
    (newFileName : option string) (s : State) : State :=
  let fileNameToUse := default (fileName s) newFileName in
  let s := setCsvData newCsvData s in
  let s := match newFileName with
           | Some f => setFileName f s
           | None => s
           end in
  updateHistory newCsvData fileNameToUse s.

Definition handleUndo (s : State) : outcome :=
  if decide (0 < currentHistoryIndex s)%Z then
    let newIndex := (currentHistoryIndex s - 1)%Z in
    match JS.index (history s) newIndex with
    | Some previousState =>
        Returned
          (setCurrentHistoryIndex newIndex
             (setFileName (HistoryState.fileName previousState)
                (setCsvData (HistoryState.csvData previousState) s)))
          [toast_success "已撤銷上一步操作"]
    | None => TypeError
    end
  else Returned s [toast_error "無法撤銷操作"].

Definition handleRedo (s : State) : outcome :=
  if decide (currentHistoryIndex s < Z.of_nat (length (history s)) - 1)%Z then
    let newIndex := (currentHistoryIndex s + 1)%Z in
    match JS.index (history s) newIndex with
    | Some nextState =>
        Returned
          (setCurrentHistoryIndex newIndex
             (setFileName (HistoryState.fileName nextState)
                (setCsvData (HistoryState.csvData nextState) s)))
          [toast_success "已重做操作"]
    | None => TypeError
    end
  else Returned s [toast_error "無法重做操作"].

(** [canUndo] and [canRedo] as passed to the grid. *)
Definition canUndo (s : State) : bool :=
  bool_decide (0 < currentHistoryIndex s)%Z.
Definition canRedo (s : State) : bool :=
  bool_decide (currentHistoryIndex s < Z.of_nat (length (history s)) - 1)%Z.

(** How Papa.parse ends for the chosen file. *)
Inductive parsed :=
  | complete (data : list (list slot))
  | error.

(** The synchronous part of [handleFileUpload], up to the call of
    [Papa.parse]; [file_name] is [file.name] of the chosen file, if any. *)
Definition handleFileUpload (file_name : option string) (s : State) : State :=
  match file_name with
  | None => s
  | Some name => setIsLoading true (setFileName name s)
  end.

(** The [complete] and [error] callbacks given to [Papa.parse]. *)
Definition parseDone (name : string) (result : parsed) (s : State)
    : State * list toast :=
  match result with
  | complete parsedData =>
      match parsedData with
      | headers :: _ =>                      (* parsedData.length > 0 *)
          let data := JS.slice_from parsedData 1 in
          let newCsvData := {| headers := headers; data := data |} in
          let s := setCsvData (Some newCsvData) s in
          let s := updateHistory (Some newCsvData) name s in
          (setIsLoading false s, [toast_success "CSV 文件已成功上傳"])
      | [] => (setIsLoading false s, [toast_error "CSV 文件為空"])
      end
  | error => (setIsLoading false s, [toast_error "解析 CSV 文件時出錯"])
  end.

(** An upload from the choice of the file to the end of the parse. *)
Definition upload (name : string) (result : parsed) (s : State)
    : State * list toast :=
  parseDone name result (handleFileUpload (Some name) s).

Definition handleDataChange (newData : list (list slot)) (s : State) : State :=
  match csvData s with
  | Some current =>
      let newCsvData := {| data := newData; headers := headers current |} in
      updateHistory (Some newCsvData) (fileName s)
        (setCsvData (Some newCsvData) s)
  | None => s
  end.

Definition handleHeaderChange (newHeaders : list slot) (s : State) : State :=
  match csvData s with
  | Some current =>
      let newCsvData := {| data := data current; headers := newHeaders |} in
      updateHistory (Some newCsvData) (fileName s)
        (setCsvData (Some newCsvData) s)
  | None => s
  end.

Definition createTemplate (s : State) : State * list toast :=
  let templateHeaders := [str "欄位1"; str "欄位2"; str "欄位3"] in
  let templateData := replicate 3 (replicate 3 (str "")) in
  let newCsvData := {| headers := templateHeaders; data := templateData |} in
  (updateDataWithHistory (Some newCsvData) (Some "template.csv") s,
   [toast_success "已創建 CSV 模板"]).

(** The [onDataUpdate] prop given to AIModifier. *)
Definition onDataUpdate (newData : CSVData) (s : State) : State :=
  updateDataWithHistory (Some newData) None s.

(** One press of the AI button, the editor's side: the calls of
    [onDataUpdate] that [processWithAI] made (at most one) reach
    [updateDataWithHistory]. *)
Definition applyUpdates (out : list AIModifier.effect) (s : State) : State :=
  match AIModifier.updates out with
  | newData :: _ => onDataUpdate newData s
  | [] => s
  end.

(** The entry the cursor points at. *)
Definition currentEntry (s : State) : option HistoryState.t :=
  JS.index (history s) (currentHistoryIndex s).

(** The table on screen is the one stored at the cursor. *)
Definition coherent (s : State) : Prop :=
  exists entry,
    currentEntry s = Some entry /\ HistoryState.csvData entry = csvData s.

(** What every handler keeps: no table and no entry yet, or the table on
    screen stored at the cursor. *)
Definition consistent (s : State) : Prop :=
  (history s = [] /\ currentHistoryIndex s = (-1)%Z /\ csvData s = None)
  \/ coherent s.


(** What [localStorage.getItem("csvData")] and [JSON.parse] give at mount:
    no item (or an empty one), an item that does not parse, or the parsed
    value. *)
Inductive saved :=
  | nothing
  | unparsable
  | stored (parsedData : option CSVData).

(** [savedFileName || "data.csv"] *)
Definition orDefault (savedFileName : option string) : string :=
  match savedFileName with
  | Some name => if decide (name = "") then "data.csv" else name
  | None => "data.csv"
  end.

(** The mount effect; [isInitializedRef] is the ref that lets it run once. *)
Definition mountEffect (isInitializedRef : bool) (savedData : saved)
    (savedFileName : option string) (s : State) : State * list toast :=
  if isInitializedRef then (s, [])
  else
    match savedData with
    | stored parsedData =>
        let s := setCsvData parsedData s in
        let s := match savedFileName with
                 | Some name => if decide (name = "") then s else setFileName name s
                 | None => s
                 end in
        let s :=
          setHistory [ {| HistoryState.csvData := parsedData;
                          HistoryState.fileName := orDefault savedFileName |} ] s in
        (setCurrentHistoryIndex 0 s, [toast_success "已從本地存儲恢復數據"])
    | unparsable => (s, [toast_error "無法恢復數據"])
    | nothing => (s, [])
    end.

(** The handlers the grid calls, as closures of one render: what they read
    is the state of that render, what they set is queued behind what the same
    event has set already. *)
Definition updateHistoryIn (render : State) (newCsvData : option CSVData)
    (newFileName : string) (pending : State) : State :=
  let newHistory :=
    newHistory (history render) (currentHistoryIndex render)
      {| HistoryState.csvData := newCsvData;
         HistoryState.fileName := newFileName |} in
  setCurrentHistoryIndex (Z.of_nat (length newHistory) - 1)%Z
    (setHistory newHistory pending).

Definition handleDataChangeIn (render : State) (newData : list (list slot))
    (pending : State) : State :=
  match csvData render with
  | Some current =>
      let newCsvData := {| data := newData; headers := headers current |} in
      updateHistoryIn render (Some newCsvData) (fileName render)
        (setCsvData (Some newCsvData) pending)
  | None => pending
  end.

Definition handleHeaderChangeIn (render : State) (newHeaders : list slot)
    (pending : State) : State :=
  match csvData render with
  | Some current =>
      let newCsvData := {| data := data current; headers := newHeaders |} in
      updateHistoryIn render (Some newCsvData) (fileName render)
        (setCsvData (Some newCsvData) pending)
  | None => pending
  end.

(** The calls one grid handler makes, delivered to the handlers of the
    render the grid was drawn in; the state of the next render. *)
Definition deliver (render : State) (calls : list CSVTable.callback) : State :=
  foldl (fun pending call =>
           match call with
           | CSVTable.onDataChange newData =>
               handleDataChangeIn render newData pending
           | CSVTable.onHeaderChange newHeaders =>
               handleHeaderChangeIn render newHeaders pending
           end)
        render calls.

(** What the user and the collaborators can make happen to the editor.  An
    upload is taken whole, from the choice of the file to the end of the
    parse; a grid event carries the calls one grid handler or effect makes
    (one call, or the header and data calls of a column edit). *)
Inductive event :=
  | uploadEvent (file_name : option string) (result : parsed)
  | templateEvent
  | gridEvent (calls : list CSVTable.callback)
  | aiEvent (out : list AIModifier.effect)
  | undoEvent
  | redoEvent.

(** The state after a handler that may throw: a throw sets nothing. *)
Definition after (o : outcome) (s : State) : State :=
  match o with
  | Returned s' _ => s'
  | TypeError => s
  end.

Definition step (ev : event) (s : State) : State :=
  match ev with
  | uploadEvent (Some name) result => (upload name result s).1
  | uploadEvent None _ => handleFileUpload None s
  | templateEvent => (createTemplate s).1
  | gridEvent calls => deliver s calls
  | aiEvent out => applyUpdates out s
  | undoEvent => after (handleUndo s) s
  | redoEvent => after (handleRedo s) s
  end.

(** The states of the editor: the initial one, the one restored at mount,
    and what events lead to from there. *)
Inductive reachable : State -> Prop :=
  | reachable_initial : reachable initial
  | reachable_restored (savedData : saved) (savedFileName : option string) :
      reachable (mountEffect false savedData savedFileName initial).1
  | reachable_step (ev : event) (s : State) :
      reachable s -> reachable (step ev s).

(** [n] presses of undo in a row; [None] if one of them throws. *)
Fixpoint undoTimes (n : nat) (s : State) : option State :=
  match n with
  | 0 => Some s
  | S n =>
      match handleUndo s with
      | Returned s' _ => undoTimes n s'
      | TypeError => None
      end
  end.

End CSVEditor.

(** * Properties *)

(** ** Array primitives *)

Section arrays.

Context {A : Type}.
Implicit Types (l : list A) (x : A).

Lemma rel_index_nonneg (k : Z) (len : nat) :
  (0 <= k)%Z -> JS.rel_index k len = Z.to_nat k `min` len.
Proof.
  intros Hk. unfold JS.rel_index.
  destruct (decide (k < 0)%Z); lia.
Qed.

(** [arr.slice(0, n)] keeps the first [n] elements. *)
Lemma slice_0 l (n : Z) :
  (0 <= n)%Z -> JS.slice l 0 n = take (Z.to_nat n) l.
Proof.
  intros Hn. unfold JS.slice.
  rewrite !rel_index_nonneg by lia.
  change (Z.to_nat 0) with 0. rewrite Nat.min_0_l, Nat.sub_0_r, drop_0.
  destruct (decide (Z.to_nat n <= length l)).
  - by rewrite Nat.min_l.
  - rewrite Nat.min_r by lia. by rewrite !take_ge by lia.
Qed.

(** [arr.slice(1)] drops the first element. *)
Lemma slice_from_1 l : JS.slice_from l 1 = drop 1 l.
Proof.
  unfold JS.slice_from, JS.slice.
  rewrite !rel_index_nonneg by lia.
  rewrite Nat2Z.id, Nat.min_id.
  destruct l as [|x l]; [done|].
  simpl. rewrite take_ge; [done|]. simpl. rewrite drop_0. lia.
Qed.

Lemma filter_from_all (p : A -> nat -> bool) l (j : nat) :
  (forall x i, j <= i -> p x i = true) -> JS.filter_from p j l = l.
Proof.
  revert j. induction l as [|x l IH]; intros j Hp; [done|].
  simpl. rewrite Hp by lia. f_equal. apply IH. intros; apply Hp; lia.
Qed.

Lemma filter_from_neq l (j k : nat) :
  JS.filter_from (fun _ index => JS.neq index (j + k)) j l = delete k l.
Proof.
  revert j k. induction l as [|x l IH]; intros j k; [done|].
  simpl. unfold JS.neq at 1. destruct k as [|k].
  - rewrite Nat.add_0_r, Nat.eqb_refl. simpl.
    apply filter_from_all. intros _ i Hi. unfold JS.neq.
    destruct (Nat.eqb_spec i j); [lia|done].
  - destruct (Nat.eqb_spec j (j + S k)); [lia|]. simpl. f_equal.
    replace (j + S k) with (S j + k) by lia. apply IH.
Qed.

Lemma filter_from_ext (p q : A -> nat -> bool) l (j : nat) :
  (forall x i, p x i = q x i) -> JS.filter_from p j l = JS.filter_from q j l.
Proof.
  intros Hpq. revert j. induction l as [|x l IH]; intros j; [done|].
  simpl. by rewrite Hpq, IH.
Qed.

(** Without holes the two filters are one. *)
Lemma filter_sparse_dense (p : A -> nat -> bool) l :
  JS.filter_sparse [] p l = JS.filter p l.
Proof.
  unfold JS.filter_sparse, JS.filter. apply filter_from_ext. intros x i.
  by rewrite bool_decide_eq_false_2 by apply not_elem_of_nil.
Qed.

(** [arr.filter((_, index) => index !== k)] removes position [k]. *)
Lemma filter_neq_delete l (k : nat) :
  JS.filter (fun _ index => JS.neq index k) l = delete k l.
Proof. apply (filter_from_neq l 0 k). Qed.

Lemma length_delete_lt l (k : nat) :
  k < length l -> length (delete k l) = length l - 1.
Proof.
  revert k. induction l as [|x l IH]; intros k Hk; simpl in *; [lia|].
  destruct k as [|k]; simpl; [lia|]. rewrite IH by lia. lia.
Qed.

End arrays.

(** ** The history log *)

Section history.

Import CSVEditor.
Implicit Types (s : State) (entry : HistoryState.t) (h : list HistoryState.t).

(** The array [updateHistory] stores, on lists: the entries up to the
    cursor, the new entry, and the head dropped beyond 50. *)
Lemma newHistory_spec h (cursor : Z) entry :
  (-1 <= cursor)%Z ->
  newHistory h cursor entry =
    let kept := take (Z.to_nat (cursor + 1)) h ++ [entry] in
    if decide (50 < length kept) then tail kept else kept.
Proof.
  intros Hc. unfold newHistory, JS.push, JS.shift.
  by rewrite slice_0 by lia.
Qed.

(** Whatever the cursor was, the stored array ends with the new entry. *)
Lemma newHistory_last h (cursor : Z) entry :
  1 <= length (newHistory h cursor entry) /\
  newHistory h cursor entry !! (length (newHistory h cursor entry) - 1)
    = Some entry.
Proof.
  unfold newHistory, JS.push, JS.shift.
  set (kept := JS.slice h 0 (cursor + 1)%Z).
  destruct (decide (50 < length (kept ++ [entry]))) as [Hlong|Hshort].
  - rewrite length_app in Hlong. simpl in Hlong.
    destruct kept as [|x kept]; simpl in *; [lia|].
    rewrite length_app. simpl. split; [lia|].
    apply list_lookup_middle. lia.
  - rewrite length_app. simpl. split; [lia|].
    apply list_lookup_middle. lia.
Qed.


Lemma index_of_nat {A} (l : list A) (i : nat) :
  JS.index l (Z.of_nat i) = l !! i.
Proof.
  unfold JS.index. destruct (decide (0 <= Z.of_nat i)%Z); [|lia].
  by rewrite Nat2Z.id.
Qed.

Lemma index_Some {A} (l : list A) (i : Z) (x : A) :
  JS.index l i = Some x <-> (0 <= i)%Z /\ l !! Z.to_nat i = Some x.
Proof.
  unfold JS.index. destruct (decide (0 <= i)%Z); [tauto|].
  split; [done|]. intros [? _]; lia.
Qed.

(** After [updateHistory] the cursor is on the new entry. *)
Lemma updateHistory_current (t : option CSVData) (f : string) s :
  currentEntry (updateHistory t f s)
    = Some {| HistoryState.csvData := t; HistoryState.fileName := f |}.
Proof.
  unfold currentEntry, updateHistory. simpl.
  match goal with |- context [newHistory ?h ?c ?e] =>
    destruct (newHistory_last h c e) as [Hlen Hlast];
    set (stored := newHistory h c e) in * end.
  replace (Z.of_nat (length stored) - 1)%Z
    with (Z.of_nat (length stored - 1)) by lia.
  by rewrite index_of_nat.
Qed.

End history.

Section history_claims.

Import CSVEditor.
Implicit Types (s : State) (entry : HistoryState.t).

Lemma entry_eta entry :
  {| HistoryState.csvData := HistoryState.csvData entry;
     HistoryState.fileName := HistoryState.fileName entry |} = entry.
Proof. by destruct entry. Qed.

(** [coherent] says the cursor is on an entry. *)
Lemma coherent_bounds s :
  coherent s ->
  (0 <= currentHistoryIndex s < Z.of_nat (length (history s)))%Z.
Proof.
  intros (entry & Hcur & _). apply index_Some in Hcur as [Hnn Hat].
  apply lookup_lt_Some in Hat. lia.
Qed.


(** C1. Recording a snapshot: [updateHistory] keeps the entries up to the
    cursor and drops those after it, appends the new entry (table and file
    name), drops the oldest entry when that makes more than 50, and puts the
    cursor on the last index.  From entries A, B, C with the cursor on C,
    undo moves the cursor to B and recording D then leaves A, B, D with the
    cursor on D: redo is refused, C is gone. *)
Theorem record_truncates_appends_evicts
    s (t : option CSVData) (f : string)
    (c : option CSVData) (n : string) (l : bool)
    (A B C D : HistoryState.t)
    (Hcursor : (-1 <= currentHistoryIndex s)%Z) :
  let entry := {| HistoryState.csvData := t; HistoryState.fileName := f |} in
  let kept :=
    take (Z.to_nat (currentHistoryIndex s + 1)) (history s) ++ [entry] in
  let s' := updateHistory t f s in
  history s' = (if decide (50 < length kept) then tail kept else kept) /\
  currentHistoryIndex s' = (Z.of_nat (length (history s')) - 1)%Z /\
  currentEntry s' = Some entry /\
  (length (history s) <= 50 -> length (history s') <= 50) /\
  (let s0 := {| csvData := c; fileName := n; isLoading := l;
                history := [A; B; C]; currentHistoryIndex := 2 |} in
   exists s1 shown,
     handleUndo s0 = Returned s1 shown /\
     currentHistoryIndex s1 = 1%Z /\ history s1 = [A; B; C] /\
     let s2 := updateHistory (HistoryState.csvData D)
                 (HistoryState.fileName D) s1 in
     history s2 = [A; B; D] /\ currentHistoryIndex s2 = 2%Z /\
     canRedo s2 = false /\
     handleRedo s2 = Returned s2 [toast_error "無法重做操作"]).
Proof.
  intros entry kept s'. split; [|split; [|split; [|split]]].
  - subst s'. unfold updateHistory. simpl. fold entry.
    by rewrite newHistory_spec.
  - reflexivity.
  - apply updateHistory_current.
  - intros Hbound. subst s'. unfold updateHistory. simpl. fold entry.
    rewrite newHistory_spec by done. cbv zeta. fold kept.
    assert (length kept <= 51).
    { subst kept. rewrite length_app, length_take. cbn [length]. lia. }
    destruct (decide (50 < length kept)); [|lia].
    destruct kept; simpl in *; lia.
  - cbv zeta. eexists _, _. split; [reflexivity|].
    simpl. rewrite entry_eta. by repeat split.
Qed.

Lemma record_truncates_appends_evicts_witness :
  let A := {| HistoryState.csvData := None; HistoryState.fileName := "a.csv" |} in
  let B := {| HistoryState.csvData := None; HistoryState.fileName := "b.csv" |} in
  (-1 <= currentHistoryIndex initial)%Z /\
  history (updateHistory None "b.csv" (updateHistory None "a.csv" initial))
    = [A; B].
Proof.
  split; [simpl; lia|].
  pose proof (record_truncates_appends_evicts
                (updateHistory None "a.csv" initial) None "b.csv"
                None "" false
                {| HistoryState.csvData := None; HistoryState.fileName := "" |}
                {| HistoryState.csvData := None; HistoryState.fileName := "" |}
                {| HistoryState.csvData := None; HistoryState.fileName := "" |}
                {| HistoryState.csvData := None; HistoryState.fileName := "" |}
                ltac:(simpl; lia)) as [Hhist _].
  rewrite Hhist. reflexivity.
Defined.

(** C2. With the cursor on an entry: undo is refused exactly at cursor 0 and
    redo exactly at the last entry; a refused undo or redo shows an error
    and returns the state as it was (table, file name, entries, cursor); an
    accepted one moves the cursor by one, takes the table and the file name
    from the entry now under the cursor and leaves the entries alone.  In
    any state at all, an undo or a redo that returns has neither added nor
    removed an entry. *)
Theorem undo_redo_boundaries s
    (Hcursor : (0 <= currentHistoryIndex s < Z.of_nat (length (history s)))%Z) :
  (currentHistoryIndex s = 0%Z ->
     handleUndo s = Returned s [toast_error "無法撤銷操作"]) /\
  (currentHistoryIndex s <> 0%Z ->
     exists entry,
       JS.index (history s) (currentHistoryIndex s - 1) = Some entry /\
       handleUndo s =
         Returned {| csvData := HistoryState.csvData entry;
                     fileName := HistoryState.fileName entry;
                     isLoading := isLoading s;
                     history := history s;
                     currentHistoryIndex := (currentHistoryIndex s - 1)%Z |}
                  [toast_success "已撤銷上一步操作"]) /\
  (currentHistoryIndex s = (Z.of_nat (length (history s)) - 1)%Z ->
     handleRedo s = Returned s [toast_error "無法重做操作"]) /\
  (currentHistoryIndex s <> (Z.of_nat (length (history s)) - 1)%Z ->
     exists entry,
       JS.index (history s) (currentHistoryIndex s + 1) = Some entry /\
       handleRedo s =
         Returned {| csvData := HistoryState.csvData entry;
                     fileName := HistoryState.fileName entry;
                     isLoading := isLoading s;
                     history := history s;
                     currentHistoryIndex := (currentHistoryIndex s + 1)%Z |}
                  [toast_success "已重做操作"]) /\
  (forall s0 s' shown,
     handleUndo s0 = Returned s' shown \/ handleRedo s0 = Returned s' shown ->
     history s' = history s0).
Proof.
  split; [|split; [|split; [|split]]].
  - intros H0. unfold handleUndo. rewrite H0.
    by destruct (decide (0 < 0)%Z); [lia|].
  - intros Hne. unfold handleUndo.
    destruct (decide (0 < currentHistoryIndex s)%Z); [|lia].
    destruct (lookup_lt_is_Some_2 (history s)
                (Z.to_nat (currentHistoryIndex s - 1))) as [entry Hat]; [lia|].
    assert (Hidx : JS.index (history s) (currentHistoryIndex s - 1) = Some entry)
      by (apply index_Some; split; [lia|done]).
    exists entry. by rewrite Hidx.
  - intros Hlast. unfold handleRedo.
    by destruct (decide (currentHistoryIndex s
                         < Z.of_nat (length (history s)) - 1)%Z); [lia|].
  - intros Hne. unfold handleRedo.
    destruct (decide (currentHistoryIndex s
                      < Z.of_nat (length (history s)) - 1)%Z); [|lia].
    destruct (lookup_lt_is_Some_2 (history s)
                (Z.to_nat (currentHistoryIndex s + 1))) as [entry Hat]; [lia|].
    assert (Hidx : JS.index (history s) (currentHistoryIndex s + 1) = Some entry)
      by (apply index_Some; split; [lia|done]).
    exists entry. by rewrite Hidx.
  - intros s0 s' shown [Hundo|Hredo].
    + unfold handleUndo in Hundo.
      destruct (decide (0 < currentHistoryIndex s0)%Z); [|by injection Hundo as <-].
      destruct (JS.index (history s0) (currentHistoryIndex s0 - 1));
        [by injection Hundo as <-|done].
    + unfold handleRedo in Hredo.
      destruct (decide (currentHistoryIndex s0
                        < Z.of_nat (length (history s0)) - 1)%Z);
        [|by injection Hredo as <-].
      destruct (JS.index (history s0) (currentHistoryIndex s0 + 1));
        [by injection Hredo as <-|done].
Qed.

End history_claims.

Section history_round_trips.

Import CSVEditor.
Implicit Types (s : State) (entry : HistoryState.t).

Lemma undo_redo_boundaries_witness :
  let A := {| HistoryState.csvData := None; HistoryState.fileName := "a.csv" |} in
  let B := {| HistoryState.csvData := None; HistoryState.fileName := "b.csv" |} in
  let s := {| csvData := None; fileName := "b.csv"; isLoading := false;
              history := [A; B]; currentHistoryIndex := 1 |} in
  (0 <= currentHistoryIndex s < Z.of_nat (length (history s)))%Z /\
  handleRedo s = Returned s [toast_error "無法重做操作"].
Proof.
  intros A B s.
  assert (Hcursor : (0 <= currentHistoryIndex s
                     < Z.of_nat (length (history s)))%Z) by (simpl; lia).
  split; [exact Hcursor|].
  destruct (undo_redo_boundaries s Hcursor) as (_ & _ & Hredo & _).
  apply Hredo. reflexivity.
Defined.

Lemma currentEntry_updateData (t : option CSVData) (f : option string) s :
  updateDataWithHistory t f s =
    updateHistory t (default (fileName s) f)
      (match f with
       | Some name => setFileName name (setCsvData t s)
       | None => setCsvData t s
       end).
Proof. reflexivity. Qed.



(** The table on screen stays the one stored at the cursor. *)

Lemma consistent_initial : consistent initial.
Proof. left. by repeat split. Qed.

Lemma coherent_record (t : option CSVData) (name : string) s :
  csvData s = t -> coherent (updateHistory t name s).
Proof.
  intros Ht. eexists. split; [apply updateHistory_current|]. by simpl.
Qed.

Lemma consistent_updateDataWithHistory (t : option CSVData) (f : option string) s :
  consistent (updateDataWithHistory t f s).
Proof.
  right. rewrite currentEntry_updateData. apply coherent_record.
  by destruct f.
Qed.

Lemma consistent_handleDataChange (newData : list (list slot)) s :
  consistent s -> consistent (handleDataChange newData s).
Proof.
  intros Hs. unfold handleDataChange. destruct (csvData s); [|done].
  right. by apply coherent_record.
Qed.

Lemma consistent_handleHeaderChange (newHeaders : list slot) s :
  consistent s -> consistent (handleHeaderChange newHeaders s).
Proof.
  intros Hs. unfold handleHeaderChange. destruct (csvData s); [|done].
  right. by apply coherent_record.
Qed.

Lemma consistent_upload (name : string) (result : parsed) s :
  consistent s -> consistent (upload name result s).1.
Proof.
  intros Hs. unfold upload, parseDone.
  destruct result as [[|row rows]|]; simpl.
  - destruct Hs as [Hs|(entry & ? & ?)]; [by left|right; by exists entry].
  - right.
    match goal with |- coherent (setIsLoading _ ?u) =>
      destruct (coherent_record (csvData u) name
                  (setCsvData (csvData u) (handleFileUpload (Some name) s))
                  eq_refl) as (entry & ? & ?) end.
    by exists entry.
  - destruct Hs as [Hs|(entry & ? & ?)]; [by left|right; by exists entry].
Qed.

Lemma consistent_handleUndo s s' shown :
  consistent s -> handleUndo s = Returned s' shown -> consistent s'.
Proof.
  intros Hs. unfold handleUndo.
  destruct (decide (0 < currentHistoryIndex s)%Z); [|congruence].
  destruct (JS.index (history s) (currentHistoryIndex s - 1)) as [entry|] eqn:Hidx;
    [|done].
  intros [= <- _]. right. by exists entry.
Qed.

Lemma consistent_handleRedo s s' shown :
  consistent s -> handleRedo s = Returned s' shown -> consistent s'.
Proof.
  intros Hs. unfold handleRedo.
  destruct (decide (currentHistoryIndex s
                    < Z.of_nat (length (history s)) - 1)%Z); [|congruence].
  destruct (JS.index (history s) (currentHistoryIndex s + 1)) as [entry|] eqn:Hidx;
    [|done].
  intros [= <- _]. right. by exists entry.
Qed.

End history_round_trips.

(** ** The grid *)

Section grid.

Import CSVTable.
Implicit Types (s : State) (row : list slot).

(** The cell the grid shows at a position: [undefined] where the row or the
    slot is missing. *)
Lemma get_set_eq row (col : nat) (v : slot) : JS.get (JS.set row col v) col = v.
Proof.
  unfold JS.get, JS.set. destruct (decide (col < length row)).
  - by rewrite list_lookup_insert_eq.
  - rewrite app_assoc, list_lookup_middle; [done|].
    rewrite length_app, length_replicate. lia.
Qed.

Lemma get_set_ne row (col j : nat) (v : slot) :
  j <> col -> JS.get (JS.set row col v) j = JS.get row j.
Proof.
  intros Hne. unfold JS.get, JS.set. destruct (decide (col < length row)).
  - by rewrite list_lookup_insert_ne.
  - destruct (decide (j < length row)).
    + by rewrite lookup_app_l.
    + rewrite (lookup_ge_None_2 row j) by lia. simpl.
      destruct (decide (j < col)).
      * rewrite app_assoc, lookup_app_l
          by (rewrite length_app, length_replicate; lia).
        rewrite lookup_app_r by lia.
        by rewrite lookup_replicate_2 by lia.
      * rewrite lookup_ge_None_2; [done|].
        rewrite !length_app, length_replicate. simpl. lia.
Qed.

Lemma normalizeRow_length (headerCount : nat) row :
  length (normalizeRow headerCount row) = headerCount.
Proof.
  unfold normalizeRow.
  destruct (decide (length row ≠ headerCount)) as [Hne|Heq].
  - destruct (decide (headerCount < length row)).
    + rewrite slice_0, Nat2Z.id, length_take by lia. lia.
    + rewrite length_app. unfold JS.fill_empty. rewrite length_replicate. lia.
  - by destruct (decide (length row = headerCount)).
Qed.

(** A row of the right width is left alone. *)
Lemma normalizeRow_id (headerCount : nat) row :
  length row = headerCount -> normalizeRow headerCount row = row.
Proof.
  intros Heq. unfold normalizeRow.
  by destruct (decide (length row ≠ headerCount)).
Qed.

Lemma needUpdate_false (headerCount : nat) (rows : list (list slot)) :
  needUpdate headerCount rows = false ->
  map (normalizeRow headerCount) rows = rows.
Proof.
  unfold needUpdate. induction rows as [|row rows IH]; [done|].
  simpl. intros [Hrow Hrows]%orb_false_elim.
  rewrite IH by done. f_equal. apply normalizeRow_id.
  apply bool_decide_eq_false in Hrow.
  by destruct (decide (length row = headerCount)).
Qed.

End grid.

Section grid_claims.

Import CSVTable.
Implicit Types (s : State) (row : list slot).

(** C9, amended. Committing the cell draft at (row, col): when the row index
    is at least the number of rows or the column index at least the number
    of headers, the edit is dropped without any report, nothing is pushed up
    and headers and rows stay as they were; when both are in range the rows
    pushed up and kept are the old ones except for the cell at (row, col),
    which holds the draft. *)
Theorem handleCellBlur_commits_one_cell s (row col : nat)
    (Hedit : editingCell s = Some (row, col)) :
  (length (internalData s) <= row \/ length (internalHeaders s) <= col ->
     handleCellBlur s = (setEditingCell None s, [])) /\
  (row < length (internalData s) -> col < length (internalHeaders s) ->
     exists newData,
       handleCellBlur s =
         (setEditingCell None (setInternalData newData s),
          [onDataChange newData]) /\
       length newData = length (internalData s) /\
       JS.cell newData row col = str (editingValue s) /\
       (forall i j, (i, j) <> (row, col) ->
          JS.cell newData i j = JS.cell (internalData s) i j) /\
       (forall i, i <> row -> newData !! i = internalData s !! i) /\
       (forall r, internalData s !! row = Some r -> col < length r ->
          newData !! row = Some (<[col := str (editingValue s)]> r))).
Proof.
  split.
  - intros Hout. unfold handleCellBlur. rewrite Hedit.
    destruct (internalData s !! row) as [r|] eqn:Hrow; [|done].
    apply lookup_lt_Some in Hrow.
    destruct (decide (col < length (internalHeaders s))); [lia|done].
  - intros Hrow Hcol. unfold handleCellBlur. rewrite Hedit.
    destruct (lookup_lt_is_Some_2 _ _ Hrow) as [r Hr]. rewrite Hr.
    destruct (decide (col < length (internalHeaders s))); [|lia].
    eexists. split; [reflexivity|].
    split; [apply length_alter|]. split; [|split; [|split]].
    + unfold JS.cell. rewrite list_lookup_alter_eq, Hr. simpl.
      apply get_set_eq.
    + intros i j Hne. unfold JS.cell.
      destruct (decide (i = row)) as [->|Hi].
      * rewrite list_lookup_alter_eq, Hr. simpl.
        apply get_set_ne. congruence.
      * by rewrite list_lookup_alter_ne.
    + intros i Hi. by rewrite list_lookup_alter_ne.
    + intros r' [= <-] Hlt. rewrite list_lookup_alter_eq, Hr. simpl.
      unfold JS.set. by destruct (decide (col < length r)).
Qed.

Lemma handleCellBlur_commits_one_cell_witness :
  let s := setEditingValue "z"
             (setEditingCell (Some (0, 1))
                (mount [str "a"; str "b"] [[str "1"; str "2"]])) in
  editingCell s = Some (0, 1) /\
  (handleCellBlur s).2 = [onDataChange [[str "1"; str "z"]]].
Proof.
  intros s. split; [reflexivity|].
  destruct (handleCellBlur_commits_one_cell s 0 1 eq_refl) as [_ Hin].
  destruct Hin as (newData & Hblur & Hlen & _ & _ & _ & Hrow);
    [simpl; lia|simpl; lia|].
  rewrite Hblur. simpl.
  specialize (Hrow [str "1"; str "2"] eq_refl ltac:(simpl; lia)).
  destruct newData as [|r0 [|r1 rest]]; simpl in Hlen, Hrow;
    [discriminate| |discriminate].
  injection Hrow as ->. reflexivity.
Defined.

(** C8. Deleting column [col], a valid index, of a header row without holes:
    the header at [col] goes, and in every row, padded on the right with
    empty strings up to the header count when it was shorter, the cell at
    [col] goes; the result is kept and pushed up.  On headers a, b and the
    row 1, 2, deleting column 0 leaves header b and the row 2. *)
Theorem deleteColumn_removes_column s (col : nat)
    (Hcol : col < length (internalHeaders s))
    (Hdense : headerHoles s = []) :
  let n := length (internalHeaders s) in
  let padded row := row ++ replicate (n - length row) (str "") in
  let newHeaders := delete col (internalHeaders s) in
  let newData := map (fun row => delete col (padded row)) (internalData s) in
  deleteColumn col s =
    (setInternalData newData
       (setInternalHeaders newHeaders (setIsUpdating true s)),
     [onHeaderChange newHeaders; onDataChange newData]) /\
  length newHeaders = n - 1 /\
  length newData = length (internalData s) /\
  (forall row, length row <= n -> length (delete col (padded row)) = n - 1) /\
  deleteColumn 0 (mount [str "a"; str "b"] [[str "1"; str "2"]]) =
    (setIsUpdating true (mount [str "b"] [[str "2"]]),
     [onHeaderChange [str "b"]; onDataChange [[str "2"]]]).
Proof.
  intros n padded newHeaders newData. split; [|split; [|split; [|split]]].
  - unfold deleteColumn. simpl.
    rewrite Hdense, filter_sparse_dense, filter_neq_delete. fold newHeaders.
    assert (Hdata :
      map (fun row =>
             JS.filter (fun _ index => JS.neq index col)
               (if decide (length row < length (internalHeaders s))
                then row ++ JS.fill_empty
                              (length (internalHeaders s) - length row)
                else row))
          (internalData s) = newData).
    { subst newData. apply map_ext. intros row. rewrite filter_neq_delete.
      f_equal. subst padded n. simpl. unfold JS.fill_empty.
      destruct (decide (length row < length (internalHeaders s))); [done|].
      replace (length (internalHeaders s) - length row) with 0 by lia.
      simpl. by rewrite app_nil_r. }
    by rewrite Hdata.
  - subst newHeaders n. by apply length_delete_lt.
  - subst newData. by rewrite length_map.
  - intros row Hrow. rewrite length_delete_lt.
    + subst padded. simpl. rewrite length_app, length_replicate. lia.
    + subst padded. simpl. rewrite length_app, length_replicate. lia.
  - reflexivity.
Qed.

Lemma deleteColumn_removes_column_witness :
  let s := mount [str "a"; str "b"] [[str "1"]; [str "2"; str "3"]] in
  (1 < length (internalHeaders s) /\ headerHoles s = []) /\
  (deleteColumn 1 s).2 =
    [onHeaderChange [str "a"]; onDataChange [[str "1"]; [str "2"]]].
Proof.
  intros s. split; [split; [simpl; lia|reflexivity]|].
  rewrite (proj1 (deleteColumn_removes_column s 1 ltac:(simpl; lia) eq_refl)).
  reflexivity.
Defined.

(** C7, refuted as stated: on header a and rows x, y the header added by
    [addColumn] is not "Column 2". *)
Lemma addColumn_header_is_not_Column_2 :
  internalHeaders
    (addColumn (mount [str "a"] [[str "x"]; [str "y"]])).1
  <> [str "a"; str "Column 2"].
Proof. vm_compute. discriminate. Qed.

(** C7, amended. [addColumn] appends one header, named 欄位 followed by a
    space and the new header count in decimal, and appends one empty string
    to every row; the result is kept and pushed up.  On header a and rows
    x, y it gives headers a, 欄位 2 and rows x, "" and y, "". *)
Theorem addColumn_appends_column s :
  let n := length (internalHeaders s) in
  let newHeaders := internalHeaders s ++ [str ("欄位 " +:+ pretty (n + 1))] in
  let newData := map (fun row => row ++ [str ""]) (internalData s) in
  addColumn s =
    (setInternalData newData
       (setInternalHeaders newHeaders (setIsUpdating true s)),
     [onHeaderChange newHeaders; onDataChange newData]) /\
  length newHeaders = n + 1 /\
  length newData = length (internalData s) /\
  addColumn (mount [str "a"] [[str "x"]; [str "y"]]) =
    (setIsUpdating true
       (mount [str "a"; str "欄位 2"]
          [[str "x"; str ""]; [str "y"; str ""]]),
     [onHeaderChange [str "a"; str "欄位 2"];
      onDataChange [[str "x"; str ""]; [str "y"; str ""]]]).
Proof.
  intros n newHeaders newData. split; [reflexivity|].
  split; [|split].
  - subst newHeaders n. rewrite length_app. simpl. lia.
  - subst newData. by rewrite length_map.
  - vm_compute. reflexivity.
Qed.

End grid_claims.

(** ** The AI update path and the upload *)

Section reconciliation.

Import AIModifier.
Variable trim : string -> string.
Implicit Types (m : State) (result : AIReturnValue) (e : CSVEditor.State).

(** Past the two guards, [processWithAI] is [handleResult] between the
    loading toast and the reset of [isProcessing]. *)
Lemma processWithAI_guarded m (answer : option AIReturnValue) :
  apiKey m <> "" -> trim (prompt m) <> "" ->
  processWithAI trim (output_parsed answer) m =
    let after :=
      handleResult answer (setAnalysisResult "" (setIsProcessing true m)) in
    (setIsProcessing false after.1, toast_call loadingToast :: after.2).
Proof.
  intros Hkey Hprompt. unfold processWithAI.
  destruct (decide (apiKey m = "")); [done|].
  destruct (decide (trim (prompt m) = "")); [done|].
  by destruct (handleResult _ _).
Qed.

(** An answer that asks for a change and has a header row. *)
Lemma handleResult_update m result (newHeaders : list slot)
    (rows : list (list slot)) :
  needsModification result = true -> table result = newHeaders :: rows ->
  handleResult (Some result) m =
    (setAnalysisResult (message result) m,
     [onDataUpdate {| headers := newHeaders; data := rows |};
      toast_call (toast_success "根據分析，CSV數據已更新")]).
Proof.
  intros Hsignal Htable. unfold handleResult.
  rewrite Hsignal, Htable, slice_from_1. simpl.
  by rewrite drop_0.
Qed.

(** [onDataUpdate] is called only from the branch guarded by
    [needsModification]. *)
Lemma handleResult_updates_only_on_signal m (answer : option AIReturnValue)
    (newData : CSVData) :
  newData ∈ updates (handleResult answer m).2 ->
  exists result, answer = Some result /\ needsModification result = true.
Proof.
  unfold handleResult. destruct answer as [result|]; simpl.
  - destruct (decide (0 < length (table result))); simpl.
    + destruct (needsModification result) eqn:Hsignal; simpl.
      * intros _. by exists result.
      * by intros ?%elem_of_nil.
    + by intros ?%elem_of_nil.
  - by intros ?%elem_of_nil.
Qed.

Lemma processWithAI_updates_only_on_signal m (answer : response)
    (newData : CSVData) :
  newData ∈ updates (processWithAI trim answer m).2 ->
  exists result,
    answer = output_parsed (Some result) /\ needsModification result = true.
Proof.
  unfold processWithAI.
  destruct (decide (apiKey m = "")); [by intros ?%elem_of_nil|].
  destruct (decide (trim (prompt m) = "")); [by intros ?%elem_of_nil|].
  destruct answer as [msg|answer]; [by intros ?%elem_of_nil|].
  destruct (handleResult answer _) as [m' out] eqn:Hres. simpl.
  intros Hin.
  destruct (handleResult_updates_only_on_signal
              (setAnalysisResult "" (setIsProcessing true m)) answer newData)
    as (result & -> & Hsignal).
  { by rewrite Hres. }
  by exists result.
Qed.

(** C4. An answer with a table whose needs-change signal is false: the
    narrative becomes the analysis shown, [onDataUpdate] is not called, so
    the editor (table, file name, history, cursor) is as before; and
    whatever the answer, [onDataUpdate] is called only when the signal is
    true. *)
Theorem no_change_signal_records_nothing m result e
    (Hkey : apiKey m <> "") (Hprompt : trim (prompt m) <> "")
    (Htable : table result <> [])
    (Hsignal : needsModification result = false) :
  let after := processWithAI trim (output_parsed (Some result)) m in
  analysisResult after.1 = message result /\
  toasts after.2 =
    [loadingToast; toast_success "數據分析完成，無需修改"] /\
  updates after.2 = [] /\
  CSVEditor.applyUpdates after.2 e = e /\
  (forall (answer : response) m0 (newData : CSVData),
     newData ∈ updates (processWithAI trim answer m0).2 ->
     exists r, answer = output_parsed (Some r) /\ needsModification r = true).
Proof.
  intros after.
  assert (Hafter : after =
    (setIsProcessing false
       (setAnalysisResult (message result)
          (setAnalysisResult "" (setIsProcessing true m))),
     [toast_call loadingToast;
      toast_call (toast_success "數據分析完成，無需修改")])).
  { subst after. rewrite processWithAI_guarded by done.
    unfold handleResult. rewrite Hsignal.
    destruct (table result) as [|row rows]; [done|]. by simpl. }
  rewrite Hafter. repeat split.
  intros answer m0 newData. apply processWithAI_updates_only_on_signal.
Qed.

(** C6. An answer whose table is empty is reported as an error and
    [onDataUpdate] is not called, so the editor is as before; an answer
    asking for a change whose table is one row is reported as a success and
    the table put on screen and recorded has that row as headers and no
    data rows. *)
Theorem reconcile_empty_and_single_row m e (flag : bool) (msg : string)
    (row : list slot)
    (Hkey : apiKey m <> "") (Hprompt : trim (prompt m) <> "") :
  let empty :=
    processWithAI trim
      (output_parsed (Some {| needsModification := flag; message := msg;
                              table := [] |})) m in
  let single :=
    processWithAI trim
      (output_parsed (Some {| needsModification := true; message := msg;
                              table := [row] |})) m in
  let accepted := {| headers := row; data := [] |} in
  toasts empty.2 = [loadingToast; toast_error "AI 返回了無效的數據格式"] /\
  updates empty.2 = [] /\
  CSVEditor.applyUpdates empty.2 e = e /\
  toasts single.2 =
    [loadingToast; toast_success "根據分析，CSV數據已更新"] /\
  updates single.2 = [accepted] /\
  CSVEditor.csvData (CSVEditor.applyUpdates single.2 e) = Some accepted /\
  CSVEditor.currentEntry (CSVEditor.applyUpdates single.2 e) =
    Some {| CSVEditor.HistoryState.csvData := Some accepted;
            CSVEditor.HistoryState.fileName := CSVEditor.fileName e |}.
Proof.
  intros empty single accepted.
  subst empty single. rewrite !processWithAI_guarded by done.
  rewrite (handleResult_update _
             {| needsModification := true; message := msg; table := [row] |}
             row [] eq_refl eq_refl).
  cbn [handleResult table length]. repeat split.
  unfold CSVEditor.applyUpdates. simpl.
  apply updateHistory_current.
Qed.

End reconciliation.

Section reconciliation_widths.

Import AIModifier.
Variable trim : string -> string.
Implicit Types (m : State) (result : AIReturnValue) (e : CSVEditor.State)
  (grid : CSVTable.State).



End reconciliation_widths.

Section reconciliation_instances.

Import AIModifier.

Lemma no_change_signal_records_nothing_witness :
  let m := {| prompt := "check the e-mail column"; apiKey := "sk-test";
              model := "gpt-4.1"; isProcessing := false;
              showApiKeyInput := false; showAdvancedSettings := false;
              analysisResult := "" |} in
  let result := {| needsModification := false; message := "all good";
                   table := [[str "h1"]; [str "a"]] |} in
  let e := (CSVEditor.createTemplate CSVEditor.initial).1 in
  (apiKey m <> "" /\ prompt m <> "" /\ table result <> [] /\
   needsModification result = false) /\
  CSVEditor.applyUpdates
    (processWithAI (fun p => p) (output_parsed (Some result)) m).2 e = e.
Proof.
  intros m result e.
  assert (Hkey : apiKey m <> "") by done.
  assert (Hprompt : prompt m <> "") by done.
  assert (Htable : table result <> []) by done.
  split; [by repeat split|].
  exact (proj1 (proj2 (proj2 (proj2
           (no_change_signal_records_nothing (fun p => p) m result e
              Hkey Hprompt Htable eq_refl))))).
Defined.

Lemma reconcile_empty_and_single_row_witness :
  let m := {| prompt := "keep the header only"; apiKey := "sk-test";
              model := "gpt-4.1"; isProcessing := false;
              showApiKeyInput := false; showAdvancedSettings := false;
              analysisResult := "" |} in
  let e := (CSVEditor.createTemplate CSVEditor.initial).1 in
  (apiKey m <> "" /\ prompt m <> "") /\
  CSVEditor.csvData
    (CSVEditor.applyUpdates
       (processWithAI (fun p => p)
          (output_parsed
             (Some {| needsModification := true; message := "done";
                      table := [[str "h1"; str "h2"]] |})) m).2 e)
    = Some {| headers := [str "h1"; str "h2"]; data := [] |}.
Proof.
  intros m e.
  assert (Hkey : apiKey m <> "") by done.
  assert (Hprompt : prompt m <> "") by done.
  split; [by split|].
  exact (proj1 (proj2 (proj2 (proj2 (proj2 (proj2
           (reconcile_empty_and_single_row (fun p => p) m e true "done"
              [str "h1"; str "h2"] Hkey Hprompt))))))).
Defined.



End reconciliation_instances.

Section upload_claims.

Import CSVEditor.

(** C10. An upload sets the file name to the chosen file's name before the
    parse ends; when the parse then yields no row at all, the table, the
    entries and the cursor are as before the upload, an error is shown, and
    the file name stays the new one: from the initial state, the upload of
    an empty file named empty.csv leaves a file name that is no longer
    data.csv. *)
Theorem empty_upload_keeps_new_file_name (s : State) (name : string) :
  let after := upload name (complete []) s in
  fileName (handleFileUpload (Some name) s) = name /\
  after.2 = [toast_error "CSV 文件為空"] /\
  csvData after.1 = csvData s /\
  history after.1 = history s /\
  currentHistoryIndex after.1 = currentHistoryIndex s /\
  fileName after.1 = name /\
  fileName (upload "empty.csv" (complete []) initial).1 <> fileName initial.
Proof. by repeat split. Qed.

End upload_claims.

(** ** More on the grid *)

Section grid_widths.

Import CSVTable.
Implicit Types (s : State) (row : list slot).

Lemma normalizeRow_cases (headerCount : nat) row :
  normalizeRow headerCount row =
    if decide (headerCount < length row) then take headerCount row
    else row ++ replicate (headerCount - length row) (str "").
Proof.
  unfold normalizeRow, JS.fill_empty.
  destruct (decide (length row ≠ headerCount)) as [Hne|Heq].
  - destruct (decide (headerCount < length row)); [|done].
    by rewrite slice_0, Nat2Z.id by lia.
  - destruct (decide (headerCount < length row)); [lia|].
    replace (headerCount - length row) with 0 by lia.
    simpl. by rewrite app_nil_r.
Qed.

Lemma delete_ge_id {A} (l : list A) (k : nat) :
  length l <= k -> delete k l = l.
Proof.
  revert k. induction l as [|x l IH]; intros k Hk; [by destruct k|].
  destruct k as [|k]; simpl in *; [lia|]. f_equal. apply IH. lia.
Qed.

Lemma delete_last {A} (l : list A) (x : A) : delete (length l) (l ++ [x]) = l.
Proof. by rewrite delete_middle, app_nil_r. Qed.

Lemma length_delete_any {A} (l : list A) (k : nat) :
  length (delete k l) = if decide (k < length l) then length l - 1 else length l.
Proof.
  destruct (decide (k < length l)).
  - by apply length_delete_lt.
  - by rewrite delete_ge_id by lia.
Qed.

Lemma needUpdate_settled (headerCount : nat) (rows : list (list slot)) :
  needUpdate headerCount rows = false <->
  Forall (fun row => length row = headerCount) rows.
Proof.
  unfold needUpdate. induction rows as [|row rows IH]; simpl.
  - split; [constructor|done].
  - rewrite orb_false_iff, IH, Forall_cons, bool_decide_eq_false.
    split; intros [Hrow Hrows]; (split; [|done]).
    + by destruct (decide (length row = headerCount)).
    + intros Hne. by apply Hne.
Qed.

(** X1. Width normalisation of a row gives it the header width and changes
    nothing of what the table body shows in the header columns: cells the
    row had stay, cells it lacked were shown empty and are now empty
    strings. *)
Theorem normalizeRow_shows_the_same (headerCount : nat) row :
  length (normalizeRow headerCount row) = headerCount /\
  (forall colIndex, colIndex < headerCount ->
     shown (normalizeRow headerCount row) colIndex = shown row colIndex) /\
  (forall colIndex, colIndex < headerCount -> colIndex < length row ->
     normalizeRow headerCount row !! colIndex = row !! colIndex).
Proof.
  split; [apply normalizeRow_length|].
  assert (Hkeep : forall colIndex,
            colIndex < headerCount -> colIndex < length row ->
            normalizeRow headerCount row !! colIndex = row !! colIndex).
  { intros j Hj Hlen. rewrite normalizeRow_cases.
    destruct (decide (headerCount < length row)).
    - by rewrite lookup_take_lt.
    - by rewrite lookup_app_l. }
  split; [|exact Hkeep].
  intros j Hj. unfold shown. rewrite normalizeRow_length.
  destruct (decide (j < headerCount)); [|lia].
  destruct (decide (j < length row)) as [Hlen|Hlen].
  - unfold JS.get. by rewrite Hkeep.
  - unfold JS.get. rewrite normalizeRow_cases.
    destruct (decide (headerCount < length row)); [lia|].
    rewrite lookup_app_r by lia.
    by rewrite lookup_replicate_2 by lia.
Qed.

Lemma normalizeRow_shows_the_same_witness :
  shown (normalizeRow 2 [str "a"]) 1 = shown [str "a"] 1 /\
  shown (normalizeRow 1 [str "a"; str "b"]) 0 = str "a".
Proof.
  split.
  - apply (proj1 (proj2 (normalizeRow_shows_the_same 2 [str "a"]))). lia.
  - rewrite (proj1 (proj2 (normalizeRow_shows_the_same 1 [str "a"; str "b"])))
      by lia.
    reflexivity.
Defined.

(** X2. With no structural edit in flight, the second effect leaves every
    row of the grid with the header width and the headers as they were; it
    pushes a data change up exactly when some row had another width; and
    run again on its own result it changes and pushes nothing. *)
Theorem normalizeEffect_settles_once s
    (Hidle : isUpdatingRef s = false) :
  let result := normalizeEffect s in
  settled result.1 /\
  internalHeaders result.1 = internalHeaders s /\
  internalData result.1 =
    map (normalizeRow (length (internalHeaders s))) (internalData s) /\
  (result.2 = [] <-> settled s) /\
  (settled s -> result = (s, [])) /\
  normalizeEffect result.1 = (result.1, []).
Proof.
  intros result.
  assert (Hdata : internalData result.1 =
            map (normalizeRow (length (internalHeaders s))) (internalData s)
          /\ internalHeaders result.1 = internalHeaders s
          /\ isUpdatingRef result.1 = false).
  { subst result. unfold normalizeEffect. rewrite Hidle.
    destruct (needUpdate (length (internalHeaders s)) (internalData s))
      eqn:Hneed.
    - assert (Hsome : bool_decide (0 < length (internalData s)) = true).
      { apply bool_decide_eq_true.
        destruct (internalData s); [discriminate Hneed|simpl; lia]. }
      rewrite Hsome. by simpl.
    - rewrite (needUpdate_false _ _ Hneed).
      by destruct (bool_decide _ && _). }
  destruct Hdata as (Hdata & Hheaders & Hidle').
  assert (Hsettled : settled result.1).
  { unfold settled. rewrite Hdata, Hheaders. apply Forall_map, Forall_forall.
    intros row _. apply normalizeRow_length. }
  assert (Hfix : forall g, isUpdatingRef g = false -> settled g ->
                           normalizeEffect g = (g, [])).
  { intros g Hg Hset. unfold normalizeEffect.
    apply needUpdate_settled in Hset. rewrite Hset.
    by destruct (bool_decide _ && _). }
  split; [exact Hsettled|]. split; [exact Hheaders|]. split; [exact Hdata|].
  split; [|split].
  - split.
    + subst result. unfold normalizeEffect. rewrite Hidle.
      destruct (needUpdate (length (internalHeaders s)) (internalData s))
        eqn:Hneed.
      * assert (Hsome : bool_decide (0 < length (internalData s)) = true).
        { apply bool_decide_eq_true.
          destruct (internalData s); [discriminate Hneed|simpl; lia]. }
        rewrite Hsome. by simpl.
      * intros _. by apply needUpdate_settled.
    + intros Hset. subst result. by rewrite Hfix.
  - intros Hset. subst result. by apply Hfix.
  - by apply Hfix.
Qed.

Lemma normalizeEffect_settles_once_witness :
  let s := mount [str "h1"] [[str "a"; str "b"]; []] in
  isUpdatingRef s = false /\
  internalData (normalizeEffect s).1 = [[str "a"]; [str ""]].
Proof.
  intros s. split; [reflexivity|].
  rewrite (proj1 (proj2 (proj2 (normalizeEffect_settles_once s eq_refl)))).
  reflexivity.
Defined.

End grid_widths.

Section grid_edits.

Import CSVTable.
Implicit Types (s : State) (row : list slot).

Lemma deleteColumn_data (colIndex : nat) s :
  internalData (deleteColumn colIndex s).1 =
    map (fun row =>
           delete colIndex
             (row ++ replicate (length (internalHeaders s) - length row) (str "")))
        (internalData s) /\
  (headerHoles s = [] ->
   internalHeaders (deleteColumn colIndex s).1
     = delete colIndex (internalHeaders s)).
Proof.
  unfold deleteColumn. simpl. split;
    [|intros ->; rewrite filter_sparse_dense; apply filter_neq_delete].
  apply map_ext. intros row. rewrite filter_neq_delete. f_equal.
  unfold JS.fill_empty.
  destruct (decide (length row < length (internalHeaders s))); [done|].
  replace (length (internalHeaders s) - length row) with 0 by lia.
  simpl. by rewrite app_nil_r.
Qed.

(** X3. A settled grid stays settled under the edits the grid offers: adding
    a row, deleting any row, adding a column, committing a cell draft, and,
    when its header row has no holes, deleting any column (an index past the
    last header included). *)
Theorem grid_edits_keep_settled s (Hsettled : settled s) :
  settled (addRow s).1 /\
  (forall rowIndex, settled (deleteRow rowIndex s).1) /\
  settled (addColumn s).1 /\
  (headerHoles s = [] -> forall colIndex, settled (deleteColumn colIndex s).1) /\
  settled (handleCellBlur s).1.
Proof.
  unfold settled in *. split; [|split; [|split; [|split]]].
  - simpl. apply Forall_app_2; [done|].
    constructor; [|constructor]. unfold JS.fill_empty.
    by rewrite length_replicate.
  - intros rowIndex. simpl. rewrite filter_neq_delete. by apply Forall_delete.
  - simpl. apply Forall_map. rewrite length_app. simpl.
    eapply Forall_impl; [exact Hsettled|]. intros row Hrow. simpl in *.
    unfold JS.push. rewrite length_app. simpl. lia.
  - intros Hdense colIndex.
    destruct (deleteColumn_data colIndex s) as [-> Hheaders].
    rewrite (Hheaders Hdense).
    apply Forall_map.
    eapply Forall_impl; [exact Hsettled|]. intros row Hrow. simpl in *.
    rewrite Hrow, Nat.sub_diag. simpl. rewrite app_nil_r.
    by rewrite !length_delete_any, Hrow.
  - unfold handleCellBlur.
    destruct (editingCell s) as [[rowIndex colIndex]|]; [|done].
    destruct (internalData s !! rowIndex) as [r|] eqn:Hrow; [|done].
    destruct (decide (colIndex < length (internalHeaders s))); [|done].
    simpl. apply Forall_alter; [done|].
    intros r' _ Hlen. unfold JS.set.
    destruct (decide (colIndex < length r')); [|lia].
    by rewrite length_insert.
Qed.

Lemma grid_edits_keep_settled_witness :
  let s := mount [str "a"; str "b"] [[str "1"; str "2"]] in
  (settled s /\ headerHoles s = []) /\
  settled (deleteColumn 5 s).1 /\ settled (addColumn s).1.
Proof.
  intros s.
  assert (Hsettled : settled s) by (repeat constructor).
  split; [by split|].
  destruct (grid_edits_keep_settled s Hsettled) as (_ & _ & Hadd & Hdel & _).
  split; [by apply Hdel|exact Hadd].
Defined.

(** X4. On a settled grid, adding a column and then deleting the column just
    added gives back the headers and the rows there were. *)
Theorem addColumn_then_deleteColumn s (Hsettled : settled s) :
  let added := (addColumn s).1 in
  let back := (deleteColumn (length (internalHeaders s)) added).1 in
  internalHeaders back = internalHeaders s /\
  internalData back = internalData s.
Proof.
  intros added back. subst back.
  destruct (deleteColumn_data (length (internalHeaders s)) added)
    as [-> Hheaders].
  rewrite (Hheaders eq_refl).
  subst added. simpl. split; [apply delete_last|].
  rewrite map_map. rewrite <- (map_id (internalData s)) at 2.
  apply map_ext_Forall. eapply Forall_impl; [exact Hsettled|].
  intros row Hrow. simpl in *. unfold JS.push.
  rewrite !length_app. simpl.
  replace (length (internalHeaders s) + 1 - (length row + 1)) with 0 by lia.
  simpl. rewrite app_nil_r, <- Hrow. apply delete_last.
Qed.

Lemma addColumn_then_deleteColumn_witness :
  let s := mount [str "a"] [[str "x"]; [str "y"]] in
  settled s /\
  internalData (deleteColumn 1 (addColumn s).1).1 = [[str "x"]; [str "y"]].
Proof.
  intros s.
  assert (Hsettled : settled s) by (repeat constructor).
  split; [exact Hsettled|].
  exact (proj2 (addColumn_then_deleteColumn s Hsettled)).
Defined.

(** X5. Deleting row [rowIndex]: the rows kept and pushed up are the old ones
    without that position, in their order, and the headers are untouched; an
    index past the last row removes nothing, and the unchanged rows are
    pushed up all the same.  Adding a row and deleting the row just added
    gives back the rows there were. *)
Theorem deleteRow_removes_row s (rowIndex : nat) :
  deleteRow rowIndex s =
    (setInternalData (delete rowIndex (internalData s)) (setIsUpdating true s),
     [onDataChange (delete rowIndex (internalData s))]) /\
  (forall j, j < rowIndex ->
     delete rowIndex (internalData s) !! j = internalData s !! j) /\
  (forall j, rowIndex <= j ->
     delete rowIndex (internalData s) !! j = internalData s !! S j) /\
  (length (internalData s) <= rowIndex ->
     (deleteRow rowIndex s).2 = [onDataChange (internalData s)]) /\
  internalData (deleteRow (length (internalData s)) (addRow s).1).1
    = internalData s.
Proof.
  split; [|split; [|split; [|split]]].
  - unfold deleteRow. simpl. by rewrite filter_neq_delete.
  - intros j Hj. by apply list_lookup_delete_lt.
  - intros j Hj. by apply list_lookup_delete_ge.
  - intros Hout. unfold deleteRow. simpl.
    by rewrite filter_neq_delete, delete_ge_id.
  - unfold deleteRow, addRow. simpl. rewrite filter_neq_delete.
    apply delete_last.
Qed.

(** X6. Committing the header draft at [index]: inside the header row only
    that header changes, the rows are untouched and a settled grid stays
    settled; the assignment has no bounds guard, so with [index] at or past
    the header count the header row grows to [index + 1] headers, the old
    ones first, holes in between, and every row is then narrower than the
    header row. *)
Theorem handleHeaderBlur_commits_one_header s (index : nat)
    (Hedit : editingHeader s = Some index) :
  let result := handleHeaderBlur s in
  let draft := str (editingHeaderValue s) in
  result.2 = [onHeaderChange (internalHeaders result.1)] /\
  internalData result.1 = internalData s /\
  editingHeader result.1 = None /\
  JS.get (internalHeaders result.1) index = draft /\
  (forall j, j <> index ->
     JS.get (internalHeaders result.1) j = JS.get (internalHeaders s) j) /\
  (index < length (internalHeaders s) ->
     internalHeaders result.1 = <[index := draft]> (internalHeaders s) /\
     (settled s -> settled result.1)) /\
  (length (internalHeaders s) <= index ->
     length (internalHeaders result.1) = index + 1 /\
     (settled s ->
      Forall (fun row => length row < length (internalHeaders result.1))
        (internalData s))).
Proof.
  intros result draft. subst result. unfold handleHeaderBlur. rewrite Hedit.
  simpl. fold draft.
  split; [done|]. split; [done|]. split; [done|].
  split; [apply get_set_eq|]. split; [intros j Hj; by apply get_set_ne|].
  split.
  - intros Hin. unfold JS.set.
    destruct (decide (index < length (internalHeaders s))); [|lia].
    split; [done|]. unfold settled. simpl. by rewrite length_insert.
  - intros Hout. unfold JS.set.
    destruct (decide (index < length (internalHeaders s))); [lia|].
    rewrite !length_app, length_replicate. simpl. split; [lia|].
    intros Hsettled. eapply Forall_impl; [exact Hsettled|].
    intros row Hrow. simpl in Hrow. lia.
Qed.

Lemma handleHeaderBlur_commits_one_header_witness :
  let s := handleHeaderClick 3 "late" (mount [str "a"] [[str "x"]]) in
  editingHeader s = Some 3 /\
  length (internalHeaders s) <= 3 /\
  length (internalHeaders (handleHeaderBlur s).1) = 3 + 1.
Proof.
  intros s. split; [reflexivity|].
  assert (Hout : length (internalHeaders s) <= 3) by (simpl; lia).
  split; [exact Hout|].
  destruct (handleHeaderBlur_commits_one_header s 3 eq_refl)
    as (_ & _ & _ & _ & _ & _ & Hgrow).
  exact (proj1 (Hgrow Hout)).
Defined.

End grid_edits.

(** ** More on the editor *)

Section editor_invariants.

Import CSVEditor.
Implicit Types (s : State) (entry : HistoryState.t).

Lemma length_slice_le {A} (l : list A) (from to : Z) :
  length (JS.slice l from to) <= length l.
Proof.
  unfold JS.slice. rewrite length_take, length_drop. lia.
Qed.

(** A history within the limit stays within it, wherever the cursor is. *)
Lemma newHistory_bounded (h : list HistoryState.t) (cursor : Z) entry :
  length h <= 50 -> length (newHistory h cursor entry) <= 50.
Proof.
  intros Hh. unfold newHistory, JS.push, JS.shift.
  pose proof (length_slice_le h 0 (cursor + 1)) as Hslice.
  destruct (decide (50 < length (JS.slice h 0 (cursor + 1) ++ [entry])))
    as [Hlong|Hshort]; [|lia].
  rewrite length_app in Hlong. simpl in Hlong.
  destruct (JS.slice h 0 (cursor + 1)) as [|x kept]; simpl in *; [lia|].
  rewrite length_app. simpl. lia.
Qed.

Lemma updateHistoryIn_same (t : option CSVData) (f : string) s :
  updateHistoryIn s t f s = updateHistory t f s.
Proof. reflexivity. Qed.

(** What a queued recording leaves, whatever was queued before it. *)
Lemma updateHistoryIn_coherent (render pending : State)
    (t : option CSVData) (f : string) :
  csvData pending = t ->
  coherent (updateHistoryIn render t f pending) /\
  (length (history render) <= 50 ->
   length (history (updateHistoryIn render t f pending)) <= 50).
Proof.
  intros Ht. split.
  - unfold coherent, currentEntry, updateHistoryIn. simpl.
    match goal with |- context [newHistory ?h ?c ?e] =>
      destruct (newHistory_last h c e) as [Hlen Hlast];
      set (stored := newHistory h c e) in * end.
    replace (Z.of_nat (length stored) - 1)%Z
      with (Z.of_nat (length stored - 1)) by lia.
    rewrite index_of_nat, Hlast. eexists. split; [reflexivity|]. by simpl.
  - intros Hbound. unfold updateHistoryIn. simpl.
    by apply newHistory_bounded.
Qed.

Lemma deliver_invariant (render : State) (calls : list CSVTable.callback) :
  consistent render /\ length (history render) <= 50 ->
  consistent (deliver render calls) /\
  length (history (deliver render calls)) <= 50.
Proof.
  intros [Hcons Hbound]. unfold deliver.
  assert (Hgen : forall pending,
            consistent pending /\ length (history pending) <= 50 ->
            let final :=
              foldl (fun pending call =>
                       match call with
                       | CSVTable.onDataChange newData =>
                           handleDataChangeIn render newData pending
                       | CSVTable.onHeaderChange newHeaders =>
                           handleHeaderChangeIn render newHeaders pending
                       end) pending calls in
            consistent final /\ length (history final) <= 50).
  { induction calls as [|call calls IH]; intros pending Hpending; [done|].
    simpl. apply IH.
    destruct call as [newData|newHeaders];
      unfold handleDataChangeIn, handleHeaderChangeIn;
      (destruct (csvData render) as [current|]; [|done]);
      match goal with |- context [updateHistoryIn render ?t ?f ?p] =>
        destruct (updateHistoryIn_coherent render p t f eq_refl) as [Hc Hb]
      end;
      (split; [by right|by apply Hb]). }
  by apply Hgen.
Qed.

Lemma updateDataWithHistory_bounded (t : option CSVData) (f : option string) s :
  length (history s) <= 50 ->
  length (history (updateDataWithHistory t f s)) <= 50.
Proof.
  intros Hbound. rewrite currentEntry_updateData. unfold updateHistory.
  simpl. apply newHistory_bounded. by destruct f.
Qed.

(** What holds in every state of the editor. *)
Lemma reachable_invariant s :
  reachable s -> consistent s /\ length (history s) <= 50.
Proof.
  induction 1 as [|savedData savedFileName|ev s Hreach [Hcons Hbound]].
  - split; [apply consistent_initial|simpl; lia].
  - destruct savedData as [| |parsedData]; simpl;
      try (split; [apply consistent_initial|simpl; lia]).
    split; [|destruct savedFileName as [name|];
              [destruct (decide (name = ""))|]; simpl; lia].
    right. eexists. split; [reflexivity|].
    destruct savedFileName as [name|]; [destruct (decide (name = ""))|]; done.
  - destruct ev as [[name|] result| |calls|out| |]; cbn [step].
    + split; [by apply consistent_upload|].
      unfold upload, parseDone.
      destruct result as [[|row rows]|]; simpl; try done.
      by apply newHistory_bounded.
    + done.
    + unfold createTemplate. cbn [fst].
      split; [apply consistent_updateDataWithHistory|].
      by apply updateDataWithHistory_bounded.
    + by apply deliver_invariant.
    + unfold applyUpdates, onDataUpdate.
      destruct (AIModifier.updates out); [done|].
      split; [apply consistent_updateDataWithHistory|].
      by apply updateDataWithHistory_bounded.
    + destruct (handleUndo s) as [s' shown|] eqn:Hundo; simpl; [|done].
      split; [by eapply consistent_handleUndo|].
      unfold handleUndo in Hundo.
      destruct (decide (0 < currentHistoryIndex s)%Z);
        [|by injection Hundo as <-].
      destruct (JS.index (history s) (currentHistoryIndex s - 1));
        [by injection Hundo as <-|done].
    + destruct (handleRedo s) as [s' shown|] eqn:Hredo; simpl; [|done].
      split; [by eapply consistent_handleRedo|].
      unfold handleRedo in Hredo.
      destruct (decide (currentHistoryIndex s
                        < Z.of_nat (length (history s)) - 1)%Z);
        [|by injection Hredo as <-].
      destruct (JS.index (history s) (currentHistoryIndex s + 1));
        [by injection Hredo as <-|done].
Qed.

Lemma reachable_cursor_bounds s :
  reachable s ->
  (-1 <= currentHistoryIndex s < Z.of_nat (length (history s)))%Z.
Proof.
  intros Hreach.
  destruct (reachable_invariant s Hreach) as [[(Hh & Hc & Ht)|Hcoh] _].
  - rewrite Hh, Hc. simpl. lia.
  - pose proof (coherent_bounds s Hcoh). lia.
Qed.

(** X7. In every state the editor can be in, the history holds at most 50
    entries. *)
Theorem reachable_history_bounded s (Hreach : reachable s) :
  length (history s) <= 50.
Proof. by apply reachable_invariant. Qed.

Lemma reachable_history_bounded_witness :
  reachable (step templateEvent initial) /\
  length (history (step templateEvent initial)) <= 50.
Proof.
  assert (Hreach : reachable (step templateEvent initial))
    by (apply reachable_step, reachable_initial).
  split; [exact Hreach|]. exact (reachable_history_bounded _ Hreach).
Defined.

(** X8. In every state the editor can be in: either there is no table, no
    entry and the cursor is -1, or the cursor is on an entry and the table on
    screen is the table of that entry; so the cursor is never outside
    -1 .. length-1, and with a table on screen it is on an entry. *)
Theorem reachable_cursor_on_screen_table s (Hreach : reachable s) :
  ((csvData s = None /\ history s = [] /\ currentHistoryIndex s = (-1)%Z) \/
   (exists entry,
      history s !! Z.to_nat (currentHistoryIndex s) = Some entry /\
      HistoryState.csvData entry = csvData s /\
      (0 <= currentHistoryIndex s)%Z)) /\
  (-1 <= currentHistoryIndex s < Z.of_nat (length (history s)))%Z /\
  (is_Some (csvData s) -> coherent s).
Proof.
  destruct (reachable_invariant s Hreach) as [[(Hh & Hc & Ht)|Hcoh] _].
  - split; [left; by repeat split|]. split; [rewrite Hh, Hc; simpl; lia|].
    rewrite Ht. by intros [? ?].
  - pose proof (coherent_bounds s Hcoh) as Hb.
    split; [|split; [lia|done]].
    right. destruct Hcoh as (entry & Hcur & Htable).
    apply index_Some in Hcur as [Hnn Hat]. by exists entry.
Qed.

Lemma reachable_cursor_on_screen_table_witness :
  reachable (step templateEvent initial) /\
  (-1 <= currentHistoryIndex (step templateEvent initial)
   < Z.of_nat (length (history (step templateEvent initial))))%Z.
Proof.
  assert (Hreach : reachable (step templateEvent initial))
    by (apply reachable_step, reachable_initial).
  split; [exact Hreach|].
  exact (proj1 (proj2 (reachable_cursor_on_screen_table _ Hreach))).
Defined.

(** X9. In every state the editor can be in, undo and redo return: the entry
    they read exists, so no [TypeError] is thrown; undo is accepted exactly
    when [canUndo] holds and redo exactly when [canRedo] holds, and a refused
    one returns the state unchanged. *)
Theorem reachable_undo_redo_return s (Hreach : reachable s) :
  handleUndo s <> TypeError /\ handleRedo s <> TypeError /\
  (canUndo s = true ->
     exists s', handleUndo s = Returned s' [toast_success "已撤銷上一步操作"]) /\
  (canUndo s = false ->
     handleUndo s = Returned s [toast_error "無法撤銷操作"]) /\
  (canRedo s = true ->
     exists s', handleRedo s = Returned s' [toast_success "已重做操作"]) /\
  (canRedo s = false ->
     handleRedo s = Returned s [toast_error "無法重做操作"]).
Proof.
  pose proof (reachable_cursor_bounds s Hreach) as Hb.
  assert (Hundo : (0 < currentHistoryIndex s)%Z ->
            exists s', handleUndo s
                       = Returned s' [toast_success "已撤銷上一步操作"]).
  { intros Hpos. unfold handleUndo.
    destruct (decide (0 < currentHistoryIndex s)%Z); [|lia].
    destruct (lookup_lt_is_Some_2 (history s)
                (Z.to_nat (currentHistoryIndex s - 1))) as [e He]; [lia|].
    assert (Hidx : JS.index (history s) (currentHistoryIndex s - 1) = Some e)
      by (apply index_Some; split; [lia|done]).
    rewrite Hidx. by eexists. }
  assert (Hredo : (currentHistoryIndex s < Z.of_nat (length (history s)) - 1)%Z ->
            exists s', handleRedo s = Returned s' [toast_success "已重做操作"]).
  { intros Hlt. unfold handleRedo.
    destruct (decide (currentHistoryIndex s
                      < Z.of_nat (length (history s)) - 1)%Z); [|lia].
    destruct (lookup_lt_is_Some_2 (history s)
                (Z.to_nat (currentHistoryIndex s + 1))) as [e He]; [lia|].
    assert (Hidx : JS.index (history s) (currentHistoryIndex s + 1) = Some e)
      by (apply index_Some; split; [lia|done]).
    rewrite Hidx. by eexists. }
  assert (Hundo' : (~ 0 < currentHistoryIndex s)%Z ->
            handleUndo s = Returned s [toast_error "無法撤銷操作"]).
  { intros Hn. unfold handleUndo.
    by destruct (decide (0 < currentHistoryIndex s)%Z). }
  assert (Hredo' :
            (~ currentHistoryIndex s < Z.of_nat (length (history s)) - 1)%Z ->
            handleRedo s = Returned s [toast_error "無法重做操作"]).
  { intros Hn. unfold handleRedo.
    by destruct (decide (currentHistoryIndex s
                         < Z.of_nat (length (history s)) - 1)%Z). }
  split; [|split; [|split; [|split; [|split]]]].
  - destruct (decide (0 < currentHistoryIndex s)%Z) as [Hp|Hp].
    + destruct (Hundo Hp) as [s' ->]. done.
    + by rewrite Hundo'.
  - destruct (decide (currentHistoryIndex s
                      < Z.of_nat (length (history s)) - 1)%Z) as [Hp|Hp].
    + destruct (Hredo Hp) as [s' ->]. done.
    + by rewrite Hredo'.
  - unfold canUndo. intros Hcan%bool_decide_eq_true. by apply Hundo.
  - unfold canUndo. intros Hcan%bool_decide_eq_false. by apply Hundo'.
  - unfold canRedo. intros Hcan%bool_decide_eq_true. by apply Hredo.
  - unfold canRedo. intros Hcan%bool_decide_eq_false. by apply Hredo'.
Qed.

Lemma reachable_undo_redo_return_witness :
  let s := step templateEvent (step templateEvent initial) in
  reachable s /\ handleUndo s <> TypeError.
Proof.
  intros s.
  assert (Hreach : reachable s)
    by (do 2 apply reachable_step; apply reachable_initial).
  split; [exact Hreach|]. exact (proj1 (reachable_undo_redo_return s Hreach)).
Defined.

End editor_invariants.

Section editor_walks.

Import CSVEditor.
Implicit Types (s : State) (entry : HistoryState.t).

(** X10. With the table on screen stored at the cursor and an entry after the
    cursor, redo followed by undo gives back the table, the entries and the
    cursor there were; the file name is then the one stored with the entry
    at the cursor. *)
Theorem redo_then_undo_restores s
    (Hcoherent : coherent s)
    (Hmore : (currentHistoryIndex s < Z.of_nat (length (history s)) - 1)%Z) :
  exists s1 s2 entry,
    handleRedo s = Returned s1 [toast_success "已重做操作"] /\
    handleUndo s1 = Returned s2 [toast_success "已撤銷上一步操作"] /\
    csvData s2 = csvData s /\
    history s2 = history s /\
    currentHistoryIndex s2 = currentHistoryIndex s /\
    currentEntry s = Some entry /\
    fileName s2 = HistoryState.fileName entry.
Proof.
  pose proof (coherent_bounds s Hcoherent) as Hbounds.
  destruct Hcoherent as (entry & Hcur & Htable).
  unfold handleRedo.
  destruct (decide (currentHistoryIndex s
                    < Z.of_nat (length (history s)) - 1)%Z); [|lia].
  destruct (lookup_lt_is_Some_2 (history s)
              (Z.to_nat (currentHistoryIndex s + 1))) as [next Hat]; [lia|].
  assert (Hidx : JS.index (history s) (currentHistoryIndex s + 1) = Some next)
    by (apply index_Some; split; [lia|done]).
  rewrite Hidx. eexists _, _, entry. split; [reflexivity|].
  unfold handleUndo. simpl.
  destruct (decide (0 < currentHistoryIndex s + 1)%Z); [|lia].
  replace (currentHistoryIndex s + 1 - 1)%Z with (currentHistoryIndex s) by lia.
  unfold currentEntry in Hcur. rewrite Hcur.
  split; [reflexivity|]. by simpl.
Qed.

Lemma redo_then_undo_restores_witness :
  let T := {| headers := [str "a"]; data := [[str "x"]] |} in
  let A := {| HistoryState.csvData := Some T; HistoryState.fileName := "a.csv" |} in
  let B := {| HistoryState.csvData := None; HistoryState.fileName := "b.csv" |} in
  let s := {| csvData := Some T; fileName := "other.csv"; isLoading := false;
              history := [A; B]; currentHistoryIndex := 0 |} in
  (coherent s /\
   (currentHistoryIndex s < Z.of_nat (length (history s)) - 1)%Z) /\
  exists s1 s2,
    handleRedo s = Returned s1 [toast_success "已重做操作"] /\
    handleUndo s1 = Returned s2 [toast_success "已撤銷上一步操作"] /\
    csvData s2 = Some T.
Proof.
  intros T A B s.
  assert (Hcoherent : coherent s) by (exists A; split; reflexivity).
  assert (Hmore : (currentHistoryIndex s
                   < Z.of_nat (length (history s)) - 1)%Z) by (simpl; lia).
  split; [by split|].
  destruct (redo_then_undo_restores s Hcoherent Hmore)
    as (s1 & s2 & entry & Hredo & Hundo & Htable & _).
  by exists s1, s2.
Defined.

Lemma undoTimes_spec (n : nat) :
  forall s,
    currentHistoryIndex s = Z.of_nat n -> n < length (history s) ->
    coherent s ->
    exists s',
      undoTimes n s = Some s' /\
      currentHistoryIndex s' = 0%Z /\
      history s' = history s /\
      isLoading s' = isLoading s /\
      coherent s'.
Proof.
  induction n as [|n IH]; intros s Hidx Hlen Hcoh.
  - exists s. by repeat split.
  - destruct (lookup_lt_is_Some_2 (history s) n) as [e He]; [lia|].
    assert (Hprev : JS.index (history s) (currentHistoryIndex s - 1) = Some e).
    { apply index_Some. split; [lia|].
      by replace (Z.to_nat (currentHistoryIndex s - 1)) with n by lia. }
    simpl. unfold handleUndo.
    destruct (decide (0 < currentHistoryIndex s)%Z); [|lia].
    rewrite Hprev.
    edestruct (IH (setCurrentHistoryIndex (currentHistoryIndex s - 1)
                     (setFileName (HistoryState.fileName e)
                        (setCsvData (HistoryState.csvData e) s))))
      as (s' & Hrun & Hzero & Hhist & Hload & Hcoh').
    + simpl. lia.
    + simpl. lia.
    + exists e. by split.
    + exists s'. by repeat split.
Qed.

Lemma undoTimes_to_first s :
  coherent s ->
  exists s' first,
    undoTimes (Z.to_nat (currentHistoryIndex s)) s = Some s' /\
    history s !! 0 = Some first /\
    csvData s' = HistoryState.csvData first /\
    currentHistoryIndex s' = 0%Z /\
    history s' = history s /\
    canUndo s' = false /\
    handleUndo s' = Returned s' [toast_error "無法撤銷操作"].
Proof.
  intros Hcoherent.
  pose proof (coherent_bounds s Hcoherent) as Hbounds.
  destruct (undoTimes_spec (Z.to_nat (currentHistoryIndex s)) s)
    as (s' & Hrun & Hzero & Hhist & _ & Hcoh'); [lia|lia|done|].
  destruct Hcoh' as (first & Hcur & Htable).
  unfold currentEntry in Hcur. rewrite Hzero, Hhist in Hcur.
  exists s', first. split; [done|]. split; [exact Hcur|].
  split; [done|]. split; [done|]. split; [done|]. split.
  - unfold canUndo. rewrite Hzero. by apply bool_decide_eq_false.
  - unfold handleUndo. rewrite Hzero. by destruct (decide (0 < 0)%Z); [lia|].
Qed.

(** X11. With the table on screen stored at the cursor, pressing undo as many
    times as the cursor's index never throws and ends on the first entry:
    cursor 0, its table on screen, the entries untouched; undo is then
    refused. *)
Theorem undo_all_reaches_first_entry s (Hcoherent : coherent s) :
  exists s' first,
    undoTimes (Z.to_nat (currentHistoryIndex s)) s = Some s' /\
    history s !! 0 = Some first /\
    csvData s' = HistoryState.csvData first /\
    currentHistoryIndex s' = 0%Z /\
    history s' = history s /\
    canUndo s' = false /\
    handleUndo s' = Returned s' [toast_error "無法撤銷操作"].
Proof. by apply undoTimes_to_first. Qed.

Lemma undo_all_reaches_first_entry_witness :
  let s := step templateEvent
             (step (gridEvent [CSVTable.onDataChange [[str "x"]]])
                (step templateEvent initial)) in
  coherent s /\
  exists s', undoTimes 2 s = Some s' /\ currentHistoryIndex s' = 0%Z.
Proof.
  intros s.
  assert (Hcoherent : coherent s) by (eexists; split; reflexivity).
  split; [exact Hcoherent|].
  destruct (undo_all_reaches_first_entry s Hcoherent)
    as (s' & first & Hrun & _ & _ & Hzero & _).
  by exists s'.
Defined.

(** X12. With the history full (50 entries, the cursor on the last), one more
    recording drops the oldest entry: the entries are the old ones from the
    second on, then the new one, again 50; undoing as far as it goes (49
    times) ends on what was the second entry, and undo is then refused, so
    the table of the old first entry cannot be brought back. *)
Theorem evicted_entry_is_out_of_reach
    s (t : option CSVData) (f : option string)
    (Hfull : length (history s) = 50)
    (Hlast : currentHistoryIndex s = 49%Z) :
  let s1 := updateDataWithHistory t f s in
  history s1 =
    drop 1 (history s)
      ++ [ {| HistoryState.csvData := t;
              HistoryState.fileName := default (fileName s) f |} ] /\
  length (history s1) = 50 /\
  exists s' second,
    undoTimes 49 s1 = Some s' /\
    history s !! 1 = Some second /\
    csvData s' = HistoryState.csvData second /\
    canUndo s' = false.
Proof.
  intros s1.
  assert (Hhist : history s1 =
            drop 1 (history s)
              ++ [ {| HistoryState.csvData := t;
                      HistoryState.fileName := default (fileName s) f |} ]).
  { subst s1. rewrite currentEntry_updateData. unfold updateHistory. simpl.
    replace (history (match f with
                      | Some name => setFileName name (setCsvData t s)
                      | None => setCsvData t s
                      end)) with (history s) by by destruct f.
    replace (currentHistoryIndex (match f with
                      | Some name => setFileName name (setCsvData t s)
                      | None => setCsvData t s
                      end)) with (currentHistoryIndex s) by by destruct f.
    rewrite newHistory_spec by lia. cbv zeta. rewrite Hlast.
    change (Z.to_nat (49 + 1)) with 50.
    rewrite take_ge by lia.
    destruct (decide (50 < length (history s ++ _))) as [_|Hn].
    - destruct (history s); [done|]. simpl. by rewrite drop_0.
    - rewrite length_app in Hn. simpl in Hn. lia. }
  assert (Hlen : length (history s1) = 50).
  { rewrite Hhist, length_app, length_drop. simpl. lia. }
  assert (Hidx : currentHistoryIndex s1 = 49%Z).
  { subst s1. rewrite currentEntry_updateData. unfold updateHistory. simpl.
    rewrite currentEntry_updateData in Hlen. unfold updateHistory in Hlen.
    simpl in Hlen. rewrite Hlen. lia. }
  split; [exact Hhist|]. split; [exact Hlen|].
  assert (Hcoherent : coherent s1).
  { subst s1. rewrite currentEntry_updateData. apply coherent_record.
    by destruct f. }
  destruct (undoTimes_to_first s1 Hcoherent)
    as (s' & first & Hrun & Hfirst & Htable & _ & _ & Hcan & _).
  rewrite Hidx in Hrun. change (Z.to_nat 49) with 49 in Hrun.
  exists s', first. split; [exact Hrun|]. split; [|by split].
  rewrite Hhist in Hfirst.
  rewrite lookup_app_l in Hfirst by (rewrite length_drop; lia).
  by rewrite lookup_drop in Hfirst.
Qed.

Lemma evicted_entry_is_out_of_reach_witness :
  let T := {| headers := [str "a"]; data := [[str "x"]] |} in
  let A := {| HistoryState.csvData := Some T; HistoryState.fileName := "a.csv" |} in
  let s := {| csvData := Some T; fileName := "a.csv"; isLoading := false;
              history := replicate 50 A; currentHistoryIndex := 49 |} in
  (length (history s) = 50 /\ currentHistoryIndex s = 49%Z) /\
  length (history (updateDataWithHistory None None s)) = 50.
Proof.
  intros T A s. split; [by split|].
  exact (proj1 (proj2 (evicted_entry_is_out_of_reach s None None
                         eq_refl eq_refl))).
Defined.

End editor_walks.

Section editor_callbacks.

Import CSVEditor.
Implicit Types (s : State) (grid : CSVTable.State).

Lemma deliver_one_data (newData : list (list slot)) s :
  deliver s [CSVTable.onDataChange newData] = handleDataChange newData s.
Proof. reflexivity. Qed.

Lemma deliver_one_headers (newHeaders : list slot) s :
  deliver s [CSVTable.onHeaderChange newHeaders]
    = handleHeaderChange newHeaders s.
Proof. reflexivity. Qed.

(** A header change followed by a data change from the same grid handler:
    both closures read the table of the same render, and what the second
    sets replaces what the first set. *)
Lemma deliver_headers_then_data (newHeaders : list slot)
    (newData : list (list slot)) s :
  deliver s [CSVTable.onHeaderChange newHeaders; CSVTable.onDataChange newData]
    = handleDataChange newData s.
Proof.
  unfold deliver, handleDataChange, handleDataChangeIn, handleHeaderChangeIn.
  simpl. by destruct (csvData s).
Qed.

(** X13. The two calls that adding or deleting a column makes reach the
    editor in one event, and the editor keeps only the second: the canonical
    table gets the grid's new rows but keeps its own old headers, and the
    history gets one entry, that table.  So after adding a column to a
    settled table whose grid is in step with it, every canonical row is one
    cell wider than the canonical header row. *)
Theorem column_calls_keep_old_headers s grid (current : CSVData)
    (Htable : csvData s = Some current) :
  let afterAdd := deliver s (CSVTable.addColumn grid).2 in
  let afterDelete colIndex := deliver s (CSVTable.deleteColumn colIndex grid).2 in
  csvData afterAdd =
    Some {| headers := headers current;
            data := CSVTable.internalData (CSVTable.addColumn grid).1 |} /\
  currentEntry afterAdd =
    Some {| HistoryState.csvData := csvData afterAdd;
            HistoryState.fileName := fileName s |} /\
  history afterAdd =
    newHistory (history s) (currentHistoryIndex s)
      {| HistoryState.csvData := csvData afterAdd;
         HistoryState.fileName := fileName s |} /\
  (forall colIndex,
     csvData (afterDelete colIndex) =
       Some {| headers := headers current;
               data := CSVTable.internalData
                         (CSVTable.deleteColumn colIndex grid).1 |}) /\
  (CSVTable.internalHeaders grid = headers current ->
   CSVTable.internalData grid = data current ->
   CSVTable.settled grid ->
   exists table,
     csvData afterAdd = Some table /\
     Forall (fun row => length row = length (headers table) + 1) (data table)).
Proof.
  intros afterAdd afterDelete.
  assert (Hadd : afterAdd =
            handleDataChange
              (CSVTable.internalData (CSVTable.addColumn grid).1) s).
  { subst afterAdd. apply deliver_headers_then_data. }
  assert (Hcsv : csvData afterAdd =
            Some {| headers := headers current;
                    data := CSVTable.internalData (CSVTable.addColumn grid).1 |}).
  { rewrite Hadd. unfold handleDataChange. by rewrite Htable. }
  split; [exact Hcsv|]. split; [|split; [|split]].
  - rewrite Hcsv, Hadd. unfold handleDataChange. rewrite Htable.
    apply updateHistory_current.
  - rewrite Hcsv, Hadd. unfold handleDataChange. by rewrite Htable.
  - intros colIndex. subst afterDelete. cbv beta.
    unfold CSVTable.deleteColumn. cbn [snd].
    rewrite deliver_headers_then_data. unfold handleDataChange.
    by rewrite Htable.
  - intros Hheaders Hdata Hsettled. eexists. split; [exact Hcsv|].
    simpl. apply Forall_map. unfold CSVTable.settled in Hsettled.
    rewrite Hheaders in Hsettled.
    eapply Forall_impl; [exact Hsettled|]. intros row Hrow. simpl in *.
    unfold JS.push. rewrite length_app. simpl. lia.
Qed.

Lemma column_calls_keep_old_headers_witness :
  let s := step templateEvent initial in
  let grid := CSVTable.mount [str "欄位1"; str "欄位2"; str "欄位3"]
                (replicate 3 (replicate 3 (str ""))) in
  csvData s = Some {| headers := [str "欄位1"; str "欄位2"; str "欄位3"];
                      data := replicate 3 (replicate 3 (str "")) |} /\
  csvData (deliver s (CSVTable.addColumn grid).2) =
    Some {| headers := [str "欄位1"; str "欄位2"; str "欄位3"];
            data := replicate 3 (replicate 4 (str "")) |}.
Proof.
  intros s grid. split; [reflexivity|].
  exact (proj1 (column_calls_keep_old_headers s grid _ eq_refl)).
Defined.

(** X14. How an upload ends.  With at least one parsed row: the first row
    becomes the headers, the others the data, the file name is the file's,
    the table is recorded under that name with the cursor on it, and a
    success is shown.  With a parse error: an error is shown, table, entries
    and cursor are as before, yet the file name is the file's.  Either way
    the loading flag is cleared.  Without a chosen file nothing changes. *)
Theorem upload_outcomes s (name : string) (row : list slot)
    (rows : list (list slot)) :
  let loaded := upload name (complete (row :: rows)) s in
  let failed := upload name error s in
  let table := {| headers := row; data := rows |} in
  csvData loaded.1 = Some table /\
  fileName loaded.1 = name /\
  isLoading loaded.1 = false /\
  currentEntry loaded.1 =
    Some {| HistoryState.csvData := Some table;
            HistoryState.fileName := name |} /\
  loaded.2 = [toast_success "CSV 文件已成功上傳"] /\
  failed.2 = [toast_error "解析 CSV 文件時出錯"] /\
  csvData failed.1 = csvData s /\
  history failed.1 = history s /\
  currentHistoryIndex failed.1 = currentHistoryIndex s /\
  fileName failed.1 = name /\
  isLoading failed.1 = false /\
  isLoading (handleFileUpload (Some name) s) = true /\
  handleFileUpload None s = s.
Proof.
  intros loaded failed table.
  assert (Hrows : JS.slice_from (row :: rows) 1 = rows).
  { rewrite slice_from_1. simpl. apply drop_0. }
  subst loaded failed. unfold upload, parseDone. rewrite Hrows. fold table.
  cbn [fst snd]. repeat split.
  unfold currentEntry. simpl.
  exact (updateHistory_current (Some table) name
           (setCsvData (Some table) (handleFileUpload (Some name) s))).
Qed.

(** X15. What the mount effect restores: from a stored table, a history of
    exactly that one entry with the cursor on it, so that neither undo nor
    redo is offered; the file name on screen and in the entry is the stored
    one, or data.csv when none or an empty one was stored.  An item that
    does not parse gives an error and the initial state; once initialised,
    the effect does nothing. *)
Theorem mountEffect_restores_one_entry (parsedData : option CSVData)
    (savedFileName : option string) (savedData : saved) s :
  let restored := (mountEffect false (stored parsedData) savedFileName initial).1 in
  csvData restored = parsedData /\
  history restored =
    [ {| HistoryState.csvData := parsedData;
         HistoryState.fileName := orDefault savedFileName |} ] /\
  currentHistoryIndex restored = 0%Z /\
  fileName restored = orDefault savedFileName /\
  canUndo restored = false /\ canRedo restored = false /\
  mountEffect false unparsable savedFileName s
    = (s, [toast_error "無法恢復數據"]) /\
  mountEffect false nothing savedFileName s = (s, []) /\
  mountEffect true savedData savedFileName s = (s, []).
Proof.
  intros restored. subst restored. unfold mountEffect, orDefault.
  destruct savedFileName as [name|]; [destruct (decide (name = "")) as [->|Hne]|];
    simpl; by repeat split.
Qed.

End editor_callbacks.

(** ** More on the AI update path *)

Section assistant.

Import AIModifier.
Variable trim : string -> string.
Implicit Types (m : State) (result : AIReturnValue).

Lemma handleResult_updates m (answer : option AIReturnValue) (newData : CSVData) :
  newData ∈ updates (handleResult answer m).2 <->
  exists result,
    answer = Some result /\ needsModification result = true /\
    table result = headers newData :: data newData.
Proof.
  unfold handleResult. destruct answer as [result|]; simpl.
  - destruct (table result) as [|newHeaders rows] eqn:Htable; simpl.
    + split; [by intros ?%elem_of_nil|].
      intros (r & [= <-] & _ & Hr). by rewrite Htable in Hr.
    + destruct (needsModification result) eqn:Hsignal; simpl.
      * rewrite slice_from_1. simpl. rewrite drop_0, list_elem_of_singleton.
        split.
        -- intros ->. exists result. by rewrite Htable.
        -- intros (r & [= <-] & _ & Hr). rewrite Htable in Hr.
           injection Hr as -> ->. by destruct newData.
      * split; [by intros ?%elem_of_nil|].
        intros (r & [= <-] & Hr & _). congruence.
  - split; [by intros ?%elem_of_nil|]. by intros (r & ? & _).
Qed.

Lemma handleResult_one_update m (answer : option AIReturnValue) :
  length (updates (handleResult answer m).2) <= 1.
Proof.
  unfold handleResult. destruct answer as [result|]; simpl; [|lia].
  destruct (decide (0 < length (table result))); simpl; [|lia].
  destruct (needsModification result); simpl; [|lia].
  destruct (table result); simpl; lia.
Qed.

(** X16. When [processWithAI] replaces the table: [onDataUpdate] is called
    with a table exactly when the API key is not empty, the trimmed prompt
    is not empty, and the call returned a parsed answer that asks for a
    change and whose table has the headers of that table as first row and
    its data as the other rows; and it is called at most once. *)
Theorem processWithAI_updates_exactly m (answer : response) (newData : CSVData) :
  (newData ∈ updates (processWithAI trim answer m).2 <->
   apiKey m <> "" /\ trim (prompt m) <> "" /\
   exists result,
     answer = output_parsed (Some result) /\
     needsModification result = true /\
     table result = headers newData :: data newData) /\
  length (updates (processWithAI trim answer m).2) <= 1.
Proof.
  unfold processWithAI.
  destruct (decide (apiKey m = "")) as [Hkey|Hkey].
  { simpl. split; [|lia]. split; [by intros ?%elem_of_nil|]. by intros [? _]. }
  destruct (decide (trim (prompt m) = "")) as [Hprompt|Hprompt].
  { simpl. split; [|lia]. split; [by intros ?%elem_of_nil|].
    by intros (_ & ? & _). }
  destruct answer as [msg|answer].
  { simpl. split; [|lia]. split; [by intros ?%elem_of_nil|].
    by intros (_ & _ & r & ? & _). }
  pose proof (handleResult_updates
                (setAnalysisResult "" (setIsProcessing true m)) answer newData)
    as Hiff.
  pose proof (handleResult_one_update
                (setAnalysisResult "" (setIsProcessing true m)) answer) as Hone.
  destruct (handleResult answer _) as [m' out]. simpl in *.
  split; [|exact Hone]. rewrite Hiff. split.
  - intros (r & -> & Hsignal & Htable). split; [done|]. split; [done|].
    by exists r.
  - intros (_ & _ & r & [= ->] & Hsignal & Htable). by exists r.
Qed.

(** X17. How [processWithAI] ends without a table.  Without an API key it
    only opens the key input and shows an error; with a key but a blank
    prompt it only shows an error; in both cases nothing is sent and the
    analysis shown before stays.  Past these guards the processing flag is
    cleared whatever the call gave, and when the call threw, returned no
    parsed answer or returned an empty table, the analysis shown is emptied,
    an error is shown and [onDataUpdate] is not called. *)
Theorem processWithAI_without_table m (answer : response) :
  (apiKey m = "" ->
     processWithAI trim answer m =
       (setShowApiKeyInput true m,
        [toast_call (toast_error "請輸入您的 OpenAI API 密鑰")])) /\
  (apiKey m <> "" -> trim (prompt m) = "" ->
     processWithAI trim answer m =
       (m, [toast_call (toast_error "請輸入指令")])) /\
  (apiKey m <> "" -> trim (prompt m) <> "" ->
     let after := processWithAI trim answer m in
     isProcessing after.1 = false /\
     prompt after.1 = prompt m /\ apiKey after.1 = apiKey m /\
     head (toasts after.2) = Some loadingToast /\
     (match answer with
      | output_parsed (Some result) => table result = []
      | _ => True
      end ->
      analysisResult after.1 = "" /\
      updates after.2 = [] /\
      existsb is_error (toasts after.2) = true)).
Proof.
  split; [|split].
  - intros Hkey. unfold processWithAI.
    by destruct (decide (apiKey m = "")).
  - intros Hkey Hprompt. unfold processWithAI.
    destruct (decide (apiKey m = "")); [done|].
    by destruct (decide (trim (prompt m) = "")).
  - intros Hkey Hprompt after. subst after. unfold processWithAI.
    destruct (decide (apiKey m = "")); [done|].
    destruct (decide (trim (prompt m) = "")); [done|].
    destruct answer as [msg|[result|]].
    + by simpl.
    + unfold handleResult.
      destruct (decide (0 < length (table result))) as [Hlen|Hlen].
      * destruct (needsModification result).
        -- destruct (table result) eqn:Htable; [simpl in Hlen; lia|].
           simpl. by repeat split.
        -- simpl. split; [done|]. split; [done|]. split; [done|].
           split; [done|].
           intros Hempty. rewrite Hempty in Hlen. simpl in Hlen. lia.
      * by simpl.
    + by simpl.
Qed.

Lemma append_assoc (a b c : string) : (a +:+ b) +:+ c = a +:+ (b +:+ c).
Proof.
  induction a as [|x a IH]; [done|].
  change (String x ((a +:+ b) +:+ c) = String x (a +:+ (b +:+ c))).
  by rewrite IH.
Qed.

(** X18. The text of the table put into the prompt does not tell cells
    apart: one cell holding a comma reads as two cells, a hole reads as an
    empty cell, and a cell holding a line feed reads as the end of a row; so
    different tables are sent as the same text. *)
Theorem csvString_is_ambiguous (a b : string) (rest : list slot)
    (rows : list (list slot)) :
  csvString {| headers := str (a +:+ "," +:+ b) :: rest; data := rows |}
    = csvString {| headers := str a :: str b :: rest; data := rows |} /\
  csvString {| headers := undefined :: rest; data := rows |}
    = csvString {| headers := str "" :: rest; data := rows |} /\
  csvString {| headers := [str (a +:+ String (Ascii.ascii_of_nat 10) b)];
               data := [] |}
    = csvString {| headers := [str a]; data := [[str b]] |} /\
  str (a +:+ "," +:+ b) :: rest <> str a :: str b :: rest.
Proof.
  split; [|split; [|split]].
  - unfold csvString, JS.join. cbn [headers data]. f_equal. f_equal.
    destruct rest as [|x rest]; cbn [map JS.join_strings JS.text]; [done|].
    by rewrite !append_assoc.
  - reflexivity.
  - reflexivity.
  - intros [= Hcell Hrest].
    assert (Hlen : length (str b :: rest) = length rest) by by rewrite <- Hrest.
    simpl in Hlen. lia.
Qed.

End assistant.

Section grid_guard.

Import CSVTable.
Implicit Types (s : State).

(** X19. The flag around structural edits and what the first effect keeps.
    Each of the four structural handlers raises the flag and the timeout
    drops it; while it is up, neither effect changes the grid or pushes
    anything; with it down, the first effect replaces headers and rows by the
    props but keeps the drafts, so a cell draft pending over the change of
    table is committed, on blur, into the table that arrived, at the same
    position when that position exists there. *)
Theorem effects_guard_and_drafts s (headers : list slot)
    (data : list (list slot)) :
  (isUpdatingRef (addRow s).1 = true /\
   (forall rowIndex, isUpdatingRef (deleteRow rowIndex s).1 = true) /\
   isUpdatingRef (addColumn s).1 = true /\
   (forall colIndex, isUpdatingRef (deleteColumn colIndex s).1 = true) /\
   isUpdatingRef (timeout s) = false) /\
  (isUpdatingRef s = true ->
     syncEffect headers data s = s /\ normalizeEffect s = (s, [])) /\
  (isUpdatingRef s = false ->
     internalHeaders (syncEffect headers data s) = headers /\
     internalData (syncEffect headers data s) = data) /\
  (editingCell (syncEffect headers data s) = editingCell s /\
   editingValue (syncEffect headers data s) = editingValue s /\
   editingHeader (syncEffect headers data s) = editingHeader s /\
   editingHeaderValue (syncEffect headers data s) = editingHeaderValue s) /\
  (forall row col,
     isUpdatingRef s = false -> editingCell s = Some (row, col) ->
     row < length data -> col < length headers ->
     (handleCellBlur (syncEffect headers data s)).2 =
       [onDataChange
          (alter (fun r => JS.set r col (str (editingValue s))) row data)]).
Proof.
  split; [by repeat split|]. split; [|split; [|split]].
  - intros Hup. unfold syncEffect, normalizeEffect. rewrite Hup.
    by rewrite andb_false_r.
  - intros Hidle. unfold syncEffect. by rewrite Hidle.
  - unfold syncEffect. by destruct (isUpdatingRef s).
  - intros row col Hidle Hedit Hrow Hcol. unfold syncEffect. rewrite Hidle.
    unfold handleCellBlur. simpl. rewrite Hedit.
    destruct (lookup_lt_is_Some_2 data row Hrow) as [r ->].
    by destruct (decide (col < length headers)).
Qed.

End grid_guard.

Section grid_bounds.

Import CSVTable.
Implicit Types (s : State) (row : list slot).

(** C9, refuted as stated: with the row index past the last row the commit
    does not fail.  The handler returns, calls nothing and has nothing else
    to report with; it clears the pending edit as an accepted commit does,
    so the draft is gone. *)
Lemma handleCellBlur_out_of_range_is_silent :
  let s := handleCellClick 5 0 "draft" (mount [str "a"] [[str "x"]]) in
  editingCell s = Some (5, 0) /\
  handleCellBlur s = (setEditingCell None s, []) /\
  editingCell (handleCellBlur s).1 <> editingCell s /\
  internalData (handleCellBlur s).1 = internalData s.
Proof. vm_compute. by repeat split. Qed.







End grid_bounds.
